(** * UniBoard: the notice store, the synchronization hub and the client projector

    A shallow embedding of [server.ts] (the SQLite-backed store and the
    WebSocket hub), of the [socket.onmessage] fold of [src/App.tsx] and of the
    wire types of [src/types.ts], followed by the properties of the
    synchronization protocol. The state of the [App] component, its form
    and its two boards are embedded as well, with the properties of the
    component alone and of the component and the hub together.

    Conventions.
    - The [notices] table is a finite map from rowid to row: [id INTEGER
      PRIMARY KEY] makes the id the key of the table.
    - Handlers run in a small state-and-exception monad over the hub and the
      list of effects performed so far, so that the JavaScript [try]/[catch]
      and the order of the database write and of the broadcast are explicit.
    - Time is a clock reading in milliseconds since the Unix epoch; the two
      renderings the server uses (SQLite's [CURRENT_TIMESTAMP] and
      JavaScript's [Date.prototype.toISOString]) are computed from it.
    - The hub checks nothing of what it parses, so a command carries
      arbitrary JSON values. What [better-sqlite3] and SQLite make of a
      parameter that is a text, null or an integral number is written out;
      what they make of any other value, and the numeric affinity of the
      [expiresAt] column, are parameters of the model ([Sqlite.Library]),
      and every property holds for all of them.
    - A JavaScript number with an integral value is the integer; rowids
      become numbers through [Js.to_double]. *)

From Stdlib Require Import ZArith String Ascii List Permutation Sorted Lia.
From stdpp Require Import gmap list fin_maps sorting.
Import ListNotations.

Local Open Scope string_scope.
Local Open Scope list_scope.
Local Open Scope Z_scope.

(** ** Clock renderings *)

Module Clock.

(** The decimal digit of the units of [n]. *)
Definition digit (n : Z) : ascii := ascii_of_nat (48 + Z.to_nat (n mod 10)).

Definition pad2 (n : Z) (rest : string) : string :=
  String (digit (n / 10)) (String (digit n) rest).

Definition pad3 (n : Z) (rest : string) : string :=
  String (digit (n / 100)) (pad2 n rest).

Definition pad4 (n : Z) (rest : string) : string :=
  String (digit (n / 1000)) (pad3 n rest).

(** Proleptic Gregorian date [(year, month, day)] of a day count from
    1970-01-01. *)
Definition civil_from_days (days : Z) : Z * Z * Z :=
  let z := days + 719468 in
  let era := z / 146097 in
  let doe := z - era * 146097 in
  let yoe := (doe - doe / 1460 + doe / 36524 - doe / 146096) / 365 in
  let doy := doe - (365 * yoe + yoe / 4 - yoe / 100) in
  let mp := (5 * doy + 2) / 153 in
  let d := doy - (153 * mp + 2) / 5 + 1 in
  let m := if mp <? 10 then mp + 3 else mp - 9 in
  let y := yoe + era * 400 in
  (if m <=? 2 then y + 1 else y, m, d).

(** [YYYY-MM-DD] followed by [sep], [HH:MM:SS] and [rest], for a reading
    in whole seconds (years of four digits). *)
Definition date_time (secs : Z) (sep : ascii) (rest : string) : string :=
  let '(y, m, d) := civil_from_days (secs / 86400) in
  let sod := secs mod 86400 in
  pad4 y (String "-" (pad2 m (String "-" (pad2 d (String sep
    (pad2 (sod / 3600) (String ":" (pad2 (sod / 60 mod 60) (String ":"
      (pad2 (sod mod 60) rest))))))))))%char.

(** SQLite's [CURRENT_TIMESTAMP]: UTC, ["YYYY-MM-DD HH:MM:SS"], whole
    seconds. *)
Definition CURRENT_TIMESTAMP (now : Z) : string :=
  date_time (now / 1000) " "%char "".

(** JavaScript's [new Date().toISOString()]: UTC,
    ["YYYY-MM-DDTHH:MM:SS.sssZ"]. *)
Definition toISOString (now : Z) : string :=
  date_time (now / 1000) "T"%char (String "."%char (pad3 (now mod 1000) "Z")).

End Clock.

(** ** JavaScript values *)

Module Js.

(** The double nearest to the integer [z], ties to the even mantissa: the
    number that [JSON.parse] reads from an integer literal, that
    [better-sqlite3] returns for a 64-bit integer, and that
    [JSON.stringify] and [JSON.parse] carry unchanged to the client. Up to
    2^53 in magnitude it is [z]; above, [z] is rounded to 53 significant
    bits (magnitudes of 2^1024 and more, which JavaScript reads as
    [Infinity], are left out). *)
Definition to_double (z : Z) : Z :=
  let a := Z.abs z in
  if a <=? 2 ^ 53 then z
  else
    let e := Z.log2 a - 52 in
    let q := a / 2 ^ e in
    let r := a mod 2 ^ e in
    let half := 2 ^ (e - 1) in
    let mantissa :=
      if r <? half then q
      else if half <? r then q + 1
      else if Z.even q then q else q + 1 in
    Z.sgn z * (mantissa * 2 ^ e).

(** A value of a parsed JSON text that is neither null nor undefined (those
    two are [None] wherever a value may be missing): a boolean, a number
    with an integral value (the double [to_double z] of the integer [z]), a
    string, or anything else (a number that is no integer, an array, an
    object), named by its JSON text. *)
Inductive Value :=
| Boolean (b : bool)
| Number (z : Z)
| Str (s : string)
| Other (text : string).

(** [ToBoolean]: null, undefined, [false], 0 and the empty string are
    falsy. *)
Definition truthy (v : option Value) : bool :=
  match v with
  | None => false
  | Some (Boolean b) => b
  | Some (Number z) => negb (z =? 0)
  | Some (Str s) => negb (String.eqb s "")
  | Some (Other _) => true
  end.

(** The string a value is, if it is one. *)
Definition text (v : option Value) : option string :=
  match v with
  | Some (Str s) => Some s
  | _ => None
  end.

End Js.

(** ** Wire types ([src/types.ts]) *)

(** [Notice], as the client holds it. [id] is a number with an integral
    value. [category] and [priority] are string literal unions in
    TypeScript; the casts of parsed JSON are unchecked, so at run time they
    are plain strings. [expiresAt], which nothing reads, is whatever value
    came with the notice, [None] when the key is absent or null. *)
Record Notice := mkNotice {
  id : Z;
  title : string;
  content : string;
  category : string;
  priority : string;
  author : string;
  createdAt : string;
  expiresAt : option Js.Value
}.

(** [NoticeInput = Omit<Notice, 'id' | 'createdAt'>] as it arrives in a
    parsed [ADD_NOTICE]: the cast checks nothing, so every key holds any
    value, or is missing or null ([None]). *)
Record NoticeInput := mkNoticeInput {
  in_title : option Js.Value;
  in_content : option Js.Value;
  in_category : option Js.Value;
  in_priority : option Js.Value;
  in_author : option Js.Value;
  in_expiresAt : option Js.Value
}.

(** [ServerEvent]: the three facts, with the types they are declared
    with. *)
Inductive ServerEvent :=
| INITIAL_STATE (notices : list Notice)
| NOTICE_ADDED (notice : Notice)
| NOTICE_DELETED (id : Z).

(** A parsed client message, [JSON.parse(data.toString()) as ClientEvent]:
    the three properties the handler reads. The cast checks nothing:
    [type] is [None] when the value has no such string, [notice] when it is
    undefined or null (a [notice] that is no object has none of the six
    keys), and [id] is any value, [None] when it is undefined or null. *)
Record ClientEvent := mkClientEvent {
  ev_type : option string;
  ev_notice : option NoticeInput;
  ev_id : option Js.Value
}.

(** [value === 'literal'] for a property that may be missing. *)
Definition strict_eq (value : option string) (literal : string) : bool :=
  match value with
  | Some s => String.eqb s literal
  | None => false
  end.

Definition categories : list string :=
  ["Academic"; "Event"; "Exam"; "General"; "Emergency"].

Definition priorities : list string := ["Low"; "Medium"; "High"].

(** ** What the model takes from SQLite and [better-sqlite3] *)

Module Sqlite.

(** A value stored in a column of [NUMERIC] affinity (the declared type
    [DATETIME] gives it): a text, an integer, or a real (named by a
    literal). *)
Inductive Numeric :=
| Text (s : string)
| Integer (z : Z)
| Real (literal : string).

(** The values of the six columns an [INSERT] binds, as stored: five texts
    (the columns are [TEXT NOT NULL]) and [expiresAt], NULL when [None]. *)
Definition Stored : Type :=
  string * string * string * string * string * option Numeric.

(** The conversions the model does not compute.
    - [numeric_affinity s]: what a column of [NUMERIC] affinity stores for
      the bound text [s] (the integer or the real [s] reads as, or [s]
      itself).
    - [insert_values args]: the values stored by the [INSERT] of
      [server.ts] run with the six arguments [args], when one of them is
      neither a text nor null; [None] when [run] throws.
    - [delete_key v]: the rowid [v] compares equal to in [WHERE id = ?],
      if any, for a parameter [v] that is neither an integral number nor
      null; [None] when [run] throws. *)
Class Library := {
  numeric_affinity : string -> Numeric;
  insert_values : list (option Js.Value) -> option Stored;
  delete_key : Js.Value -> option (option Z)
}.

(** What [better-sqlite3] returns for a stored value. *)
Definition value (x : Numeric) : Js.Value :=
  match x with
  | Text s => Js.Str s
  | Integer z => Js.Number z
  | Real literal => Js.Other literal
  end.

End Sqlite.

(** ** The durable store: the [notices] table of [notices.db] *)

Module Store.

(** A row without its key. The five [TEXT] columns hold texts. [createdAt]
    is never bound by the [INSERT], so it always holds the column default.
    [expiresAt] is NULL ([None]) or what the numeric affinity of its column
    made of the bound value. *)
Record Row := mkRow {
  r_title : string;
  r_content : string;
  r_category : string;
  r_priority : string;
  r_author : string;
  r_createdAt : string;
  r_expiresAt : option Sqlite.Numeric
}.

(** The table keyed by rowid, and the [sqlite_sequence] counter that
    [AUTOINCREMENT] keeps for it (0 while the table never had a row). *)
Record Db := mkDb {
  notices : gmap Z Row;
  sqlite_sequence : Z
}.

Definition empty : Db := {| notices := ∅; sqlite_sequence := 0 |}.

(** Largest rowid: 2^63 - 1. *)
Definition MAX_ROWID : Z := 9223372036854775807.

Definition largest_rowid (t : gmap Z Row) : Z :=
  foldr Z.max 0 (map fst (map_to_list t)).

(** [INSERT INTO notices (title, content, category, priority, author,
    expiresAt) VALUES (?, ?, ?, ?, ?, ?)], given the values to store. With
    [AUTOINCREMENT] the new rowid is one more than the largest rowid the
    table ever held; when that is [MAX_ROWID] the insert fails with
    [SQLITE_FULL]. [createdAt] takes [CURRENT_TIMESTAMP]. Returns
    [lastInsertRowid] (as the integer it is) and the new database. *)
Definition insert (d : Db) (now : Z)
    (title content category priority author : string)
    (expiresAt : option Sqlite.Numeric) : option (Z * Db) :=
  let last := Z.max (sqlite_sequence d) (largest_rowid (notices d)) in
  if last =? MAX_ROWID then None
  else
    let rowid := last + 1 in
    let row := {| r_title := title; r_content := content;
                  r_category := category; r_priority := priority;
                  r_author := author;
                  r_createdAt := Clock.CURRENT_TIMESTAMP now;
                  r_expiresAt := expiresAt |} in
    Some (rowid, {| notices := <[rowid := row]> (notices d);
                    sqlite_sequence := rowid |}).

(** [DELETE FROM notices WHERE id = ?], given the rowid the parameter
    compares equal to. *)
Definition delete (d : Db) (id : Z) : Db :=
  {| notices := base.delete id (notices d);
     sqlite_sequence := sqlite_sequence d |}.

(** Insertion of [x] before the first element it is [le] to: sorting with it
    keeps equal elements in their original order. *)
Fixpoint insert_sorted {A} (le : A -> A -> bool) (x : A) (l : list A) : list A :=
  match l with
  | [] => [x]
  | y :: l' => if le x y then x :: l else y :: insert_sorted le x l'
  end.

Definition sort_by {A} (le : A -> A -> bool) (l : list A) : list A :=
  foldr (insert_sorted le) [] l.

(** The rows in rowid order, as a scan of the table yields them. *)
Definition scan (d : Db) : list (Z * Row) :=
  sort_by (fun a b => fst a <=? fst b) (map_to_list (notices d)).

(** [ORDER BY createdAt DESC] on the text of the column (BINARY collation). *)
Definition createdAt_desc (a b : Z * Row) : bool :=
  String.leb (r_createdAt (snd b)) (r_createdAt (snd a)).

(** The object of one row of [SELECT *]: the rowid comes back as a
    number. *)
Definition to_object (kr : Z * Row) : Notice :=
  {| id := Js.to_double (fst kr);
     title := r_title (snd kr);
     content := r_content (snd kr);
     category := r_category (snd kr);
     priority := r_priority (snd kr);
     author := r_author (snd kr);
     createdAt := r_createdAt (snd kr);
     expiresAt := Sqlite.value <$> r_expiresAt (snd kr) |}.

(** [SELECT * FROM notices ORDER BY createdAt DESC]: the query names no
    second sort key. SQL leaves the order of rows with equal [createdAt]
    open; here, as in SQLite's sorter, they stay in the order of the scan. *)
Definition select_all (d : Db) : list Notice :=
  map to_object (sort_by createdAt_desc (scan d)).

End Store.

(** ** The synchronization hub ([startServer] of [server.ts]) *)

Module Hub.

Inductive ReadyState := CONNECTING | OPEN | CLOSING | CLOSED.

#[global] Instance ReadyState_eq_dec : EqDecision ReadyState.
Proof. solve_decision. Defined.

(** A socket of [wss.clients], named by a connection number. *)
Record Client := mkClient {
  conn : nat;
  readyState : ReadyState
}.

Record State := mkState {
  db : Store.Db;
  clients : list Client
}.

Definition initial : State := {| db := Store.empty; clients := [] |}.

Inductive Error :=
| SyntaxError   (* JSON.parse rejected the text *)
| TypeError     (* a property of undefined was read *)
| RunError.     (* Statement.run threw: a parameter that cannot be bound, a
                   NOT NULL constraint, SQLITE_FULL *)

(** What [JSON.stringify] puts on a socket: a fact of the type [ServerEvent]
    declares, or a [NOTICE_ADDED] or a [NOTICE_DELETED] that is not of it,
    because one of the five fields of the notice is no string or the id is
    no integral number. *)
Inductive Payload :=
| Typed (event : ServerEvent)
| NOTICE_ADDED_untyped (id : Z)
    (title content category priority author : option Js.Value)
    (createdAt : string) (expiresAt : option Js.Value)
| NOTICE_DELETED_untyped (id : option Js.Value).

Coercion Typed : ServerEvent >-> Payload.

(** What the hub does to the outside, in the order it does it: lines on the
    console, the two statements it runs on the database (an [INSERT] that
    wrote [row] under [rowid]; a [DELETE] whose parameter compared equal to
    the rowid [key], or to none) and [send] on a socket. *)
Inductive Effect :=
| ConsoleLog (msg : string)
| ConsoleError (err : Error)
| Inserted (rowid : Z) (row : Store.Row)
| Deleted (key : option Z)
| Send (to : nat) (payload : Payload).

Inductive Outcome (A : Type) :=
| Returned (a : A)
| Thrown (err : Error).
Arguments Returned {A} a.
Arguments Thrown {A} err.

(** A computation reads and updates the hub state, performs effects, and
    returns or throws. Updates and effects made before a throw stay. *)
Definition M (A : Type) : Type := State -> Outcome A * State * list Effect.

Definition ret {A} (a : A) : M A := fun s => (Returned a, s, []).

Definition throw {A} (err : Error) : M A := fun s => (Thrown err, s, []).

Definition bind {A B} (m : M A) (f : A -> M B) : M B :=
  fun s =>
    match m s with
    | (Returned a, s1, t1) =>
        let '(o, s2, t2) := f a s1 in (o, s2, t1 ++ t2)
    | (Thrown err, s1, t1) => (Thrown err, s1, t1)
    end.

Definition try_catch {A} (m : M A) (handler : Error -> M A) : M A :=
  fun s =>
    match m s with
    | (Returned a, s1, t1) => (Returned a, s1, t1)
    | (Thrown err, s1, t1) =>
        let '(o, s2, t2) := handler err s1 in (o, s2, t1 ++ t2)
    end.

Definition get : M State := fun s => (Returned s, s, []).

Definition put_db (d : Store.Db) : M unit :=
  fun s => (Returned tt, {| db := d; clients := clients s |}, []).

Definition emit (e : Effect) : M unit := fun s => (Returned tt, s, [e]).

Definition emit_all (es : list Effect) : M unit := fun s => (Returned tt, s, es).

#[global] Instance M_ret : MRet M := @ret.
#[global] Instance M_bind : MBind M := fun A B f m => bind m f.

(** The payload of a WebSocket message: text that [JSON.parse] turns into an
    object, or text on which the parse (or the first property read of its
    result) throws. *)
Inductive Data :=
| Json (event : ClientEvent)
| NotJson (text : string).

Definition JSON_parse (data : Data) : M ClientEvent :=
  match data with
  | Json event => ret event
  | NotJson _ => throw SyntaxError
  end.

Definition is_open (c : Client) : bool :=
  match readyState c with OPEN => true | _ => false end.

(** [broadcast]: one [send] to every client whose [readyState] is [OPEN]. *)
Definition sends (payload : Payload) (cs : list Client) : list Effect :=
  map (fun c => Send (conn c) payload) (filter is_open cs).

Definition broadcast (payload : Payload) : M unit :=
  s ← get; emit_all (sends payload (clients s)).

(** [const { title, ... } = event.notice] throws when [event.notice] is
    undefined or null. *)
Definition destructure (notice : option NoticeInput) : M NoticeInput :=
  match notice with
  | Some n => ret n
  | None => throw TypeError
  end.

(** [expiresAt || null]. *)
Definition or_null (v : option Js.Value) : option Js.Value :=
  if Js.truthy v then v else None.

(** [{ type: 'NOTICE_ADDED', notice: newNotice }] with [id] the number
    [info.lastInsertRowid] is read as, the fields as the command gave them
    and [createdAt] the text of [new Date().toISOString()]. *)
Definition notice_added (id : Z) (n : NoticeInput) (createdAt : string)
    : Payload :=
  match Js.text (in_title n), Js.text (in_content n),
        Js.text (in_category n), Js.text (in_priority n),
        Js.text (in_author n) with
  | Some title, Some content, Some category, Some priority, Some author =>
      NOTICE_ADDED
        {| id := id;
           title := title;
           content := content;
           category := category;
           priority := priority;
           author := author;
           expiresAt := in_expiresAt n;
           createdAt := createdAt |}
  | _, _, _, _, _ =>
      NOTICE_ADDED_untyped id (in_title n) (in_content n) (in_category n)
        (in_priority n) (in_author n) createdAt (in_expiresAt n)
  end.

(** [{ type: 'NOTICE_DELETED', id: event.id }]. *)
Definition notice_deleted (id : option Js.Value) : Payload :=
  match id with
  | Some (Js.Number z) => NOTICE_DELETED (Js.to_double z)
  | _ => NOTICE_DELETED_untyped id
  end.

(** [notices.map(n => ({ ...n, createdAt: n.createdAt }))]. *)
Definition format (n : Notice) : Notice :=
  {| id := id n; title := title n; content := content n;
     category := category n; priority := priority n; author := author n;
     expiresAt := expiresAt n; createdAt := createdAt n |}.

(** The WebSocket server adds the socket to [wss.clients], open, before it
    emits ["connection"]. *)
Definition add_client (c : nat) : M unit :=
  fun s => (Returned tt,
            {| db := db s;
               clients := clients s ++ [{| conn := c; readyState := OPEN |}] |},
            []).

(** The [wss.on("connection", ...)] handler for the new socket [c]. *)
Definition on_connection (c : nat) : M unit :=
  add_client c;;
  emit (ConsoleLog "Client connected");;
  s ← get;
  let notices := Store.select_all (db s) in
  let formattedNotices := map format notices in
  emit (Send c (INITIAL_STATE formattedNotices)).

(** What reaches the hub: a new connection, or a message on a socket. *)
Inductive Input :=
| Connection (c : nat)
| Message (c : nat) (data : Data) (now : Z).

Section Statements.
Context {lib : Sqlite.Library}.

(** A parameter that is a text or null ([Some]; undefined is bound as
    null), or something else ([None]). *)
Definition text_or_null (v : option Js.Value) : option (option string) :=
  match v with
  | None => Some None
  | Some (Js.Str s) => Some (Some s)
  | Some _ => None
  end.

(** The values the [INSERT] stores for its six arguments, or [None] when
    [run] throws. When every argument is a text or null, the texts are
    stored as they are, [expiresAt] through the numeric affinity of its
    column, and a null in one of the five [NOT NULL] columns fails the
    constraint. *)
Definition insert_parameters
    (title content category priority author expiresAt : option Js.Value)
    : option Sqlite.Stored :=
  match text_or_null title, text_or_null content, text_or_null category,
        text_or_null priority, text_or_null author, text_or_null expiresAt with
  | Some title, Some content, Some category, Some priority, Some author,
    Some expiresAt =>
      match title, content, category, priority, author with
      | Some title, Some content, Some category, Some priority, Some author =>
          Some (title, content, category, priority, author,
                Sqlite.numeric_affinity <$> expiresAt)
      | _, _, _, _, _ => None
      end
  | _, _, _, _, _, _ =>
      Sqlite.insert_values
        [title; content; category; priority; author; expiresAt]
  end.

(** [db.prepare(INSERT ...).run(title, content, category, priority, author,
    expiresAt || null)]; returns [info.lastInsertRowid]. Nothing is written
    when [run] throws. *)
Definition run_insert (now : Z)
    (title content category priority author expiresAt : option Js.Value)
    : M Z :=
  match insert_parameters title content category priority author expiresAt with
  | None => throw RunError
  | Some (title, content, category, priority, author, expiresAt) =>
      s ← get;
      match Store.insert (db s) now title content category priority author
              expiresAt with
      | None => throw RunError
      | Some (rowid, d) =>
          put_db d;;
          emit (Inserted rowid
                  (Store.mkRow title content category priority author
                     (Clock.CURRENT_TIMESTAMP now) expiresAt));;
          ret rowid
      end
  end.

(** The rowid the parameter of the [DELETE] compares equal to, if any, or
    [None] when [run] throws: null (and undefined, bound as null) equals
    none, an integral number equals itself. *)
Definition delete_parameter (id : option Js.Value) : option (option Z) :=
  match id with
  | None => Some None
  | Some (Js.Number z) => Some (Some (Js.to_double z))
  | Some v => Sqlite.delete_key v
  end.

(** [db.prepare("DELETE FROM notices WHERE id = ?").run(event.id)]. *)
Definition run_delete (id : option Js.Value) : M unit :=
  match delete_parameter id with
  | None => throw RunError
  | Some key =>
      s ← get;
      match key with
      | Some k => put_db (Store.delete (db s) k)
      | None => ret tt
      end;;
      emit (Deleted key)
  end.

(** The [ws.on("message", ...)] handler; [now] is the clock while it
    runs. *)
Definition on_message (data : Data) (now : Z) : M unit :=
  try_catch
    (event ← JSON_parse data;
     if strict_eq (ev_type event) "ADD_NOTICE" then
       n ← destructure (ev_notice event);
       lastInsertRowid ←
         run_insert now (in_title n) (in_content n) (in_category n)
           (in_priority n) (in_author n) (or_null (in_expiresAt n));
       broadcast
         (notice_added (Js.to_double lastInsertRowid) n (Clock.toISOString now))
     else if strict_eq (ev_type event) "DELETE_NOTICE" then
       run_delete (ev_id event);;
       broadcast (notice_deleted (ev_id event))
     else ret tt)
    (fun err => emit (ConsoleError err)).

Definition handle (i : Input) : M unit :=
  match i with
  | Connection c => on_connection c
  | Message _ data now => on_message data now
  end.

(** The event loop: inputs are handled one after the other. *)
Fixpoint run (inputs : list Input) : M unit :=
  match inputs with
  | [] => ret tt
  | i :: rest => handle i;; run rest
  end.

End Statements.

(** State and effects of a computation started in [s]. *)
Definition state_after {A} (m : M A) (s : State) : State := snd (fst (m s)).
Definition effects_of {A} (m : M A) (s : State) : list Effect := snd (m s).
Definition outcome_of {A} (m : M A) (s : State) : Outcome A := fst (fst (m s)).

End Hub.

(** ** The client projector ([socket.onmessage] of [src/App.tsx]) *)

Module Projector.

(** [JSON.parse(event.data) as ServerEvent]: one of the three facts, or a
    value whose [type] is another string or no string at all ([None]). *)
Inductive Data :=
| Fact (event : ServerEvent)
| Other (type : option string).

Definition type_of (data : Data) : option string :=
  match data with
  | Fact (INITIAL_STATE _) => Some "INITIAL_STATE"
  | Fact (NOTICE_ADDED _) => Some "NOTICE_ADDED"
  | Fact (NOTICE_DELETED _) => Some "NOTICE_DELETED"
  | Other type => type
  end.

(** The [switch] of the handler as the update it applies to the [notices]
    state; no [case] matches an unknown type, and there is no [default]. *)
Definition onmessage (prev : list Notice) (data : Data) : list Notice :=
  match data with
  | Fact (INITIAL_STATE notices) => notices
  | Fact (NOTICE_ADDED notice) => notice :: prev
  | Fact (NOTICE_DELETED i) => filter (fun n => negb (id n =? i)) prev
  | Other _ => prev
  end.

(** The local sequence after a stream of messages, starting from
    [useState<Notice[]>([])]. *)
Definition project (stream : list Data) : list Notice :=
  fold_left onmessage stream [].

End Projector.

(** ** The application component ([App] and [AddNoticeModal] of [src/App.tsx]) *)

Module App.

(** The values of the two [<select>] elements of the form. *)
Inductive Category := Academic | Event | Exam | General | Emergency.

Inductive Priority := Low | Medium | High.

Definition category_value (c : Category) : string :=
  match c with
  | Academic => "Academic"
  | Event => "Event"
  | Exam => "Exam"
  | General => "General"
  | Emergency => "Emergency"
  end.

Definition priority_value (p : Priority) : string :=
  match p with
  | Low => "Low"
  | Medium => "Medium"
  | High => "High"
  end.

(** The buttons of the public board: ['All'] ([None]) and the categories. *)
Definition filter_value (f : option Category) : string :=
  match f with
  | None => "All"
  | Some c => category_value c
  end.

(** [formData] of [AddNoticeModal]: a [NoticeInput] without [expiresAt]. *)
Record FormData := mkFormData {
  f_title : string;
  f_content : string;
  f_category : string;
  f_priority : string;
  f_author : string
}.

(** [useState<NoticeInput>({ title: '', content: '', category: 'General',
    priority: 'Medium', author: 'Admin' })]. *)
Definition initial_form : FormData :=
  {| f_title := ""; f_content := ""; f_category := "General";
     f_priority := "Medium"; f_author := "Admin" |}.

Inductive View := public | admin.

(** The state of [App]. [filter_by] is the [filter] state. [modal] is the
    [formData] of the [AddNoticeModal] that is mounted, if one is:
    [AnimatePresence] mounts the modal when [isAddModalOpen] becomes true
    and keeps it mounted, with its state and its handlers, while its exit
    animation runs after [isAddModalOpen] became false. [socket] is the
    [readyState] of the one WebSocket the effect creates. *)
Record State := mkState {
  notices : list Notice;
  view : View;
  filter_by : string;
  search : string;
  isAddModalOpen : bool;
  modal : option FormData;
  socket : Hub.ReadyState
}.

Definition initial : State :=
  {| notices := []; view := public; filter_by := "All"; search := "";
     isAddModalOpen := false; modal := None; socket := Hub.CONNECTING |}.

(** What can happen to the component: a message on the socket, a change of
    its [readyState], the end of the exit animation of the modal, and the
    user's actions on the elements rendered. *)
Inductive Action :=
| OnMessage (data : Projector.Data)
| ReadyStateChange (rs : Hub.ReadyState)
| ExitComplete
| ClickView (v : View)
| TypeSearch (value : string)
| ClickFilter (f : option Category)
| ClickNewNotice
| ClickClose
| TypeTitle (value : string)
| SelectCategory (c : Category)
| SelectPriority (p : Priority)
| TypeContent (value : string)
| TypeAuthor (value : string)
| ClickPublish
| ClickDelete (id : Z).

(** The [readyState] of a WebSocket only advances. *)
Definition rank (rs : Hub.ReadyState) : nat :=
  match rs with
  | Hub.CONNECTING => 0
  | Hub.OPEN => 1
  | Hub.CLOSING => 2
  | Hub.CLOSED => 3
  end.

(** [socket.send(data)]: throws while the socket is connecting ([None]),
    puts the data on the wire while it is open, and drops it without a word
    once it is closing or closed. *)
Definition send (rs : Hub.ReadyState) (data : Hub.Data) : option (list Hub.Data) :=
  match rs with
  | Hub.CONNECTING => None
  | Hub.OPEN => Some [data]
  | Hub.CLOSING | Hub.CLOSED => Some []
  end.

(** [JSON.stringify({ type: 'ADD_NOTICE', notice })] as the hub parses it. *)
Definition ADD_NOTICE (notice : FormData) : Hub.Data :=
  Hub.Json
    {| ev_type := Some "ADD_NOTICE";
       ev_notice :=
         Some {| in_title := Some (Js.Str (f_title notice));
                 in_content := Some (Js.Str (f_content notice));
                 in_category := Some (Js.Str (f_category notice));
                 in_priority := Some (Js.Str (f_priority notice));
                 in_author := Some (Js.Str (f_author notice));
                 in_expiresAt := None |};
       ev_id := None |}.

(** [JSON.stringify({ type: 'DELETE_NOTICE', id })] as the hub parses it. *)
Definition DELETE_NOTICE (id : Z) : Hub.Data :=
  Hub.Json
    {| ev_type := Some "DELETE_NOTICE"; ev_notice := None;
       ev_id := Some (Js.Number id) |}.

Definition set_notices (s : State) (l : list Notice) : State :=
  {| notices := l; view := view s; filter_by := filter_by s;
     search := search s; isAddModalOpen := isAddModalOpen s;
     modal := modal s; socket := socket s |}.

Definition set_view (s : State) (v : View) : State :=
  {| notices := notices s; view := v; filter_by := filter_by s;
     search := search s; isAddModalOpen := isAddModalOpen s;
     modal := modal s; socket := socket s |}.

Definition set_filter (s : State) (f : string) : State :=
  {| notices := notices s; view := view s; filter_by := f;
     search := search s; isAddModalOpen := isAddModalOpen s;
     modal := modal s; socket := socket s |}.

Definition set_search (s : State) (v : string) : State :=
  {| notices := notices s; view := view s; filter_by := filter_by s;
     search := v; isAddModalOpen := isAddModalOpen s; modal := modal s;
     socket := socket s |}.

Definition set_modal (s : State) (m : option FormData) : State :=
  {| notices := notices s; view := view s; filter_by := filter_by s;
     search := search s; isAddModalOpen := isAddModalOpen s; modal := m;
     socket := socket s |}.

(** [setIsAddModalOpen(open)]. *)
Definition set_open (s : State) (open : bool) : State :=
  {| notices := notices s; view := view s; filter_by := filter_by s;
     search := search s; isAddModalOpen := open; modal := modal s;
     socket := socket s |}.

Definition set_socket (s : State) (rs : Hub.ReadyState) : State :=
  {| notices := notices s; view := view s; filter_by := filter_by s;
     search := search s; isAddModalOpen := isAddModalOpen s;
     modal := modal s; socket := rs |}.

(** [setFormData(prev => ({ ...prev, field: value }))], in the mounted
    modal. *)
Definition set_form (s : State) (update : FormData -> FormData) : State :=
  match modal s with
  | Some f => set_modal s (Some (update f))
  | None => s
  end.

(** [disabled={!formData.title || !formData.content}]. *)
Definition disabled (f : FormData) : bool :=
  String.eqb (f_title f) "" || String.eqb (f_content f) "".

(** The row of the admin table whose trash button bears [id]. *)
Definition has_row (s : State) (id' : Z) : bool :=
  existsb (fun n => id n =? id') (notices s).

(** One action: the new state and what was put on the wire. An action on
    an element that is not rendered (the board of the other view, the
    modal that is not mounted, a row that is not there) or that is disabled
    does not occur and changes nothing; neither does a handler that [send]
    makes throw. The elements of the modal take the user's actions as long
    as it is mounted, during its exit animation too. *)
Definition step (s : State) (a : Action) : State * list Hub.Data :=
  match a with
  | OnMessage data => (set_notices s (Projector.onmessage (notices s) data), [])
  | ReadyStateChange rs =>
      if (rank (socket s) <? rank rs)%nat then (set_socket s rs, []) else (s, [])
  | ClickView v => (set_view s v, [])
  | TypeSearch value =>
      match view s with
      | public => (set_search s value, [])
      | admin => (s, [])
      end
  | ClickFilter f =>
      match view s with
      | public => (set_filter s (filter_value f), [])
      | admin => (s, [])
      end
  | ExitComplete =>
      if isAddModalOpen s then (s, []) else (set_modal s None, [])
  | ClickNewNotice =>
      match view s with
      | admin =>
          (set_open
             (set_modal s (Some (default initial_form (modal s)))) true, [])
      | public => (s, [])
      end
  | ClickClose =>
      match modal s with
      | Some _ => (set_open s false, [])
      | None => (s, [])
      end
  | TypeTitle value =>
      (set_form s (fun f => mkFormData value (f_content f) (f_category f)
                              (f_priority f) (f_author f)), [])
  | SelectCategory c =>
      (set_form s (fun f => mkFormData (f_title f) (f_content f)
                              (category_value c) (f_priority f) (f_author f)), [])
  | SelectPriority p =>
      (set_form s (fun f => mkFormData (f_title f) (f_content f)
                              (f_category f) (priority_value p) (f_author f)), [])
  | TypeContent value =>
      (set_form s (fun f => mkFormData (f_title f) value (f_category f)
                              (f_priority f) (f_author f)), [])
  | TypeAuthor value =>
      (set_form s (fun f => mkFormData (f_title f) (f_content f) (f_category f)
                              (f_priority f) value), [])
  | ClickPublish =>
      match modal s with
      | Some f =>
          if disabled f then (s, [])
          else
            match send (socket s) (ADD_NOTICE f) with
            | Some wire => (set_open s false, wire)
            | None => (s, [])
            end
      | None => (s, [])
      end
  | ClickDelete id' =>
      match view s with
      | admin =>
          if has_row s id' then
            match send (socket s) (DELETE_NOTICE id') with
            | Some wire => (s, wire)
            | None => (s, [])
            end
          else (s, [])
      | public => (s, [])
      end
  end.

(** A sequence of actions: the final state and everything put on the wire. *)
Fixpoint run (actions : list Action) (s : State) : State * list Hub.Data :=
  match actions with
  | [] => (s, [])
  | a :: rest =>
      let '(s1, wire1) := step s a in
      let '(s2, wire2) := run rest s1 in
      (s2, wire1 ++ wire2)
  end.

(** [a.includes(b)]. *)
Fixpoint includes (a b : string) : bool :=
  String.prefix b a
  || match a with
     | String _ a' => includes a' b
     | EmptyString => false
     end.

(** [filteredNotices], with [String.prototype.toLowerCase] as a
    parameter. *)
Definition matches (toLowerCase : string -> string) (filter search : string)
    (n : Notice) : bool :=
  let matchesFilter := String.eqb filter "All" || String.eqb (category n) filter in
  let matchesSearch :=
    includes (toLowerCase (title n)) (toLowerCase search)
    || includes (toLowerCase (content n)) (toLowerCase search) in
  matchesFilter && matchesSearch.

Definition filteredNotices (toLowerCase : string -> string) (s : State)
    : list Notice :=
  base.filter (fun n => matches toLowerCase (filter_by s) (search s) n) (notices s).



End App.

(** ** Vocabulary of the properties *)

Import Hub.

(** *** Commands *)

(** An [ADD_NOTICE] carrying a notice, and a [DELETE_NOTICE] carrying a
    number as id, with whatever else the object holds. *)
Definition add_notice (n : NoticeInput) (i : option Js.Value) : Data :=
  Json {| ev_type := Some "ADD_NOTICE"; ev_notice := Some n; ev_id := i |}.

Definition delete_notice (i : Z) (n : option NoticeInput) : Data :=
  Json {| ev_type := Some "DELETE_NOTICE"; ev_notice := n;
          ev_id := Some (Js.Number i) |}.

(** A notice as [NoticeInput] declares it: five strings, and [expiresAt] a
    string or absent. *)
Definition complete (t c cat p a : string) (e : option string) : NoticeInput :=
  mkNoticeInput (Some (Js.Str t)) (Some (Js.Str c)) (Some (Js.Str cat))
    (Some (Js.Str p)) (Some (Js.Str a)) (Js.Str <$> e).

(** A field the [INSERT] cannot take: missing or null. *)
Definition lacks_required (n : NoticeInput) : Prop :=
  in_title n = None \/ in_content n = None \/ in_category n = None \/
  in_priority n = None \/ in_author n = None.

(** A value that is a string, or missing or null. *)
Definition plain (v : option Js.Value) : bool :=
  match v with
  | None | Some (Js.Str _) => true
  | Some _ => false
  end.

(** A notice whose six parameters of the [INSERT] are strings or null. *)
Definition plain_notice (n : NoticeInput) : bool :=
  plain (in_title n) && plain (in_content n) && plain (in_category n)
  && plain (in_priority n) && plain (in_author n)
  && plain (or_null (in_expiresAt n)).

(** The inputs a validating store would refuse: an empty title or content, a
    category or a priority outside the enumerated sets. *)
Definition fails_validation (n : NoticeInput) : Prop :=
  in_title n = Some (Js.Str "") \/ in_content n = Some (Js.Str "") \/
  (exists c, in_category n = Some (Js.Str c) /\ ~ In c categories) \/
  (exists p, in_priority n = Some (Js.Str p) /\ ~ In p priorities).

(** No rowid is left for an insertion. *)
Definition rowids_exhausted (d : Store.Db) : Prop :=
  Z.max (Store.sqlite_sequence d) (Store.largest_rowid (Store.notices d))
    = Store.MAX_ROWID.

(** The notice an [ADD_NOTICE] with five strings broadcasts. *)
Definition new_notice (rowid : Z) (t c cat p a : string)
    (e : option Js.Value) (now : Z) : Notice :=
  {| id := Js.to_double rowid; title := t; content := c; category := cat;
     priority := p; author := a; createdAt := Clock.toISOString now;
     expiresAt := e |}.

(** Text that does not parse, or an object whose [type] is neither of the
    two commands. *)
Definition not_a_command (data : Data) : Prop :=
  match data with
  | NotJson _ => True
  | Json ev =>
      ev_type ev <> Some "ADD_NOTICE" /\ ev_type ev <> Some "DELETE_NOTICE"
  end.

(** An input in which every command the hub reads is of the kinds the
    model writes out: the notice of an [ADD_NOTICE] holds strings (or lacks
    fields), the id of a [DELETE_NOTICE] is an integral number (or is
    missing). *)
Definition conforming (i : Input) : bool :=
  match i with
  | Connection _ | Message _ (NotJson _) _ => true
  | Message _ (Json ev) _ =>
      if strict_eq (ev_type ev) "ADD_NOTICE" then
        match ev_notice ev with
        | Some n => plain_notice n
        | None => true
        end
      else if strict_eq (ev_type ev) "DELETE_NOTICE" then
        match ev_id ev with
        | None | Some (Js.Number _) => true
        | Some _ => false
        end
      else true
  end.

Definition fact_types : list string :=
  ["INITIAL_STATE"; "NOTICE_ADDED"; "NOTICE_DELETED"].

(** *** Effects *)

(** An effect that is no store operation. *)
Definition quiet (e : Effect) : Prop :=
  match e with
  | Inserted _ _ | Deleted _ => False
  | _ => True
  end.

Definition is_console_error (e : Effect) : Prop :=
  match e with ConsoleError _ => True | _ => False end.

(** The ids of the insertions in a list of effects, in order. *)
Definition inserted_ids (t : list Effect) : list Z :=
  omap (fun e => match e with Inserted k _ => Some k | _ => None end) t.

(** [e] inserts or deletes the row [k]. *)
Definition touches (k : Z) (e : Effect) : Prop :=
  match e with
  | Inserted k' _ | Deleted (Some k') => k' = k
  | _ => False
  end.

(** The table after the store operations of [t], in order. *)
Definition apply_effect (m : gmap Z Store.Row) (e : Effect) : gmap Z Store.Row :=
  match e with
  | Inserted k row => <[k := row]> m
  | Deleted (Some k) => delete k m
  | _ => m
  end.

Definition replay (t : list Effect) (m : gmap Z Store.Row) : gmap Z Store.Row :=
  fold_left apply_effect t m.

(** What one input does to the store: nothing, one insertion above the
    sequence counter, or one [DELETE]. *)
Inductive step_shape (s s' : State) (t : list Effect) : Prop :=
| shape_quiet :
    db s' = db s -> Forall quiet t -> step_shape s s' t
| shape_insert rowid row t' :
    Store.notices (db s') = <[rowid := row]> (Store.notices (db s)) ->
    Store.sqlite_sequence (db s) < rowid ->
    Store.sqlite_sequence (db s') = rowid ->
    t = Inserted rowid row :: t' -> Forall quiet t' -> step_shape s s' t
| shape_delete key t' :
    Store.notices (db s') = apply_effect (Store.notices (db s)) (Deleted key) ->
    Store.sqlite_sequence (db s') = Store.sqlite_sequence (db s) ->
    t = Deleted key :: t' -> Forall quiet t' -> step_shape s s' t.

(** Everything sent to the connection [c], in order. *)
Definition received (c : nat) (t : list Effect) : list Payload :=
  omap (fun e =>
          match e with
          | Send to p => if Nat.eqb to c then Some p else None
          | _ => None
          end) t.

(** A payload the projector, which holds notices of the declared type,
    can take: any but a [NOTICE_ADDED] one of whose five fields is no
    string. *)
Definition readable (p : Payload) : Prop :=
  match p with
  | NOTICE_ADDED_untyped _ _ _ _ _ _ _ _ => False
  | _ => True
  end.

(** Payloads as the projector parses them. A [NOTICE_DELETED] whose id is
    no integral number equals the id of no notice under [!==] and changes
    nothing: it is left out. *)
Definition facts (l : list Payload) : list Projector.Data :=
  omap (fun p =>
          match p with
          | Typed ev => Some (Projector.Fact ev)
          | _ => None
          end) l.

(** The local sequence the client of the connection [c] folds from what it
    is sent, as long as that is [readable]. *)
Definition mirror (c : nat) (t : list Effect) : list Notice :=
  Projector.project (facts (received c t)).

(** *** Orders on notices *)

(** [ORDER BY createdAt DESC] as a relation on the notices returned. *)
Definition newer_or_same (a b : Notice) : Prop :=
  String.leb (createdAt b) (createdAt a) = true.

(** The order C5 claims between a notice and the one after it: a later
    [createdAt], or the same [createdAt] and a larger id. *)
Definition claimed_before (a b : Notice) : bool :=
  String.ltb (createdAt b) (createdAt a)
  || (String.eqb (createdAt a) (createdAt b) && (id b <? id a)).

Fixpoint in_claimed_order (l : list Notice) : bool :=
  match l with
  | a :: (b :: _) as rest => claimed_before a b && in_claimed_order rest
  | _ => true
  end.

(** *** Sample inputs *)

(** Noon (UTC) of 1 January 2024, 123 ms after the full second. *)
Definition noon : Z := 1704110400123.

(** A fresh database and one open connection. *)
Definition one_viewer : State :=
  {| db := Store.empty; clients := [mkClient 1 OPEN] |}.

Definition exam_schedule : NoticeInput :=
  complete "Exam Schedule" "Finals begin Monday" "Exam" "High" "Registrar" None.

(** Empty title and content, a category and a priority that are no member
    of the unions. *)
Definition blank_notice : NoticeInput :=
  complete "" "" "Bogus" "Urgent" "Admin" None.

(** The library of the closed examples below. Their commands hold strings
    and integral numbers only and no [expiresAt], so that nothing of it is
    ever consulted: it refuses every other value and keeps a text as it
    is. *)
Definition inert : Sqlite.Library :=
  {| Sqlite.numeric_affinity := Sqlite.Text;
     Sqlite.insert_values := fun _ => None;
     Sqlite.delete_key := fun _ => None |}.

(** *** The notice set as the specification words it *)

Module Spec.

(** A notice of the set: its id with its title, content, category, priority
    and author. *)
Definition Entry : Type := Z * (string * string * string * string * string).

(** The set is a list of entries with the last id that was assigned. An
    [ADD_NOTICE] whose notice has its five fields enters the set under the
    next id; a [DELETE_NOTICE] takes the notice with its id out; nothing
    else changes the set. *)
Definition command (st : Z * list Entry) (i : Input) : Z * list Entry :=
  match i with
  | Message _ (Json ev) _ =>
      if strict_eq (ev_type ev) "ADD_NOTICE" then
        match ev_notice ev with
        | Some {| in_title := Some (Js.Str t); in_content := Some (Js.Str c);
                  in_category := Some (Js.Str cat);
                  in_priority := Some (Js.Str p);
                  in_author := Some (Js.Str a) |} =>
            (fst st + 1, snd st ++ [(fst st + 1, (t, c, cat, p, a))])
        | _ => st
        end
      else if strict_eq (ev_type ev) "DELETE_NOTICE" then
        match ev_id ev with
        | Some (Js.Number i) =>
            (fst st, filter (fun e => fst e <> i) (snd st))
        | _ => st
        end
      else st
  | _ => st
  end.

(** Every notice added and not yet deleted, after the commands of
    [inputs] on an empty set. *)
Definition notice_set (inputs : list Input) : list Entry :=
  snd (fold_left command inputs (0, [])).

End Spec.

(** The five fields of a row. *)
Definition fields (row : Store.Row)
    : string * string * string * string * string :=
  (Store.r_title row, Store.r_content row, Store.r_category row,
   Store.r_priority row, Store.r_author row).

(** A database holds a notice set: the sequence counter is the last id
    assigned, and the rows are the entries, each under its id, which is
    positive and not above the counter. *)
Definition holds (d : Store.Db) (st : Z * list Spec.Entry) : Prop :=
  Store.sqlite_sequence d = fst st
  /\ 0 <= fst st
  /\ NoDup (map fst (snd st))
  /\ (forall k f,
        (k, f) ∈ snd st <->
        exists row, Store.notices d !! k = Some row /\ fields row = f)
  /\ (forall k row, Store.notices d !! k = Some row -> 1 <= k <= fst st).

(** The entry of a notice of a snapshot. *)
Definition entry (n : Notice) : Spec.Entry :=
  (id n, (title n, content n, category n, priority n, author n)).

(** *** Store operations and the facts that announce them *)

Inductive Op :=
| Added (id : Z)
| Removed.

(** The store operations of a list of effects, in order, an insertion with
    the number its rowid is read as. *)
Definition ops (t : list Effect) : list Op :=
  omap (fun e =>
          match e with
          | Inserted k _ => Some (Added (Js.to_double k))
          | Deleted _ => Some Removed
          | _ => None
          end) t.


(** How many open sockets of [wss.clients] bear the number [c]. *)
Definition registrations (c : nat) (cs : list Client) : nat :=
  length (filter (fun cl => is_open cl && Nat.eqb (conn cl) c) cs).

(** A mirrored notice and a row agree on the five fields of the command. *)
Definition agrees (n : Notice) (row : Store.Row) : Prop :=
  title n = Store.r_title row /\ content n = Store.r_content row /\
  category n = Store.r_category row /\ priority n = Store.r_priority row /\
  author n = Store.r_author row.


(** The snapshot of a table: the result of the [SELECT] on it. *)
Definition snapshot (m : gmap Z Store.Row) : list Notice :=
  Store.select_all {| Store.notices := m; Store.sqlite_sequence := 0 |}.

(** What is true of a payload when it is sent, [before] being the effects
    of the run up to the send and [m] the table the run started from. *)
Definition backed_by (m : gmap Z Store.Row) (before : list Effect)
    (p : Payload) : Prop :=
  match p with
  | Typed (NOTICE_ADDED n) =>
      exists rowid row,
        Inserted rowid row ∈ before /\ id n = Js.to_double rowid
        /\ (plain (or_null (expiresAt n)) -> agrees n row)
  | NOTICE_ADDED_untyped i _ _ _ _ _ _ _ =>
      exists rowid row, Inserted rowid row ∈ before /\ i = Js.to_double rowid
  | Typed (NOTICE_DELETED i) => Deleted (Some i) ∈ before
  | NOTICE_DELETED_untyped _ => exists key, Deleted key ∈ before
  | Typed (INITIAL_STATE ns) => ns = snapshot (replay before m)
  end.

(** The order of a scan: by rowid. *)
Definition by_rowid (a b : Z * Store.Row) : Prop := (fst a <=? fst b) = true.

(** The order of the [SELECT] on rows. *)
Definition newer_row (a b : Z * Store.Row) : Prop :=
  Store.createdAt_desc a b = true.

(** Every row of the table is of an earlier second than the clock shows. *)
Definition all_older (d : Store.Db) (now : Z) : Prop :=
  forall k row,
    Store.notices d !! k = Some row ->
    String.ltb (Store.r_createdAt row) (Clock.CURRENT_TIMESTAMP now) = true.

(** What holds of every database the hub builds from an empty one: the ids
    are positive and not above the sequence counter, and every [createdAt]
    is a rendering of [CURRENT_TIMESTAMP]. *)
Definition well_formed (d : Store.Db) : Prop :=
  forall k row,
    Store.notices d !! k = Some row ->
    1 <= k <= Store.sqlite_sequence d
    /\ exists now, Store.r_createdAt row = Clock.CURRENT_TIMESTAMP now.

(** The ids of the table, and those the next [budget] inputs can make it
    assign, are exact as numbers: none exceeds 2^53. *)
Definition exact_ids (d : Store.Db) (budget : nat) : Prop :=
  (forall k row, Store.notices d !! k = Some row ->
                 1 <= k <= Store.sqlite_sequence d)
  /\ 0 <= Store.sqlite_sequence d
  /\ Store.sqlite_sequence d + Z.of_nat budget <= 2 ^ 53.

(** What the handler does with a message that is [conforming]: what it
    sends has the declared type, but for the [NOTICE_DELETED] without id
    of a [DELETE_NOTICE] without id. *)
Inductive conforming_case (now : Z) (s : State) : State -> list Effect -> Prop :=
| conforming_added t c cat p a e x rowid d :
    Store.insert (db s) now t c cat p a x = Some (rowid, d) ->
    conforming_case now s {| db := d; clients := clients s |}
      (Inserted rowid (Store.mkRow t c cat p a (Clock.CURRENT_TIMESTAMP now) x)
       :: sends (NOTICE_ADDED (new_notice rowid t c cat p a e now)) (clients s))
| conforming_deleted k :
    conforming_case now s
      {| db := Store.delete (db s) k; clients := clients s |}
      (Deleted (Some k) :: sends (NOTICE_DELETED k) (clients s))
| conforming_deleted_none :
    conforming_case now s s
      (Deleted None :: sends (NOTICE_DELETED_untyped None) (clients s))
| conforming_ignored :
    conforming_case now s s []
| conforming_failed err :
    conforming_case now s s [ConsoleError err].

Inductive conforming_handled (s : State) : Input -> State -> list Effect -> Prop :=
| conforming_connection c :
    conforming_handled s (Connection c)
      {| db := db s; clients := clients s ++ [mkClient c OPEN] |}
      [ConsoleLog "Client connected";
       Send c (INITIAL_STATE (Store.select_all (db s)))]
| conforming_message c data now s' t :
    conforming_case now s s' t ->
    conforming_handled s (Message c data now) s' t.

(** *** The application component *)

(** A command of the form: an [ADD_NOTICE] whose notice holds five strings
    that pass the validation, and nothing else. *)
Definition form_command (data : Data) : Prop :=
  exists t c cat p a,
    data = add_notice (complete t c cat p a None) None
    /\ ~ fails_validation (complete t c cat p a None).

(** A command of a row of the admin table. *)
Definition row_command (data : Data) : Prop :=
  exists i, data = delete_notice i None.

(** The selected values of a mounted form are values of the two lists. *)
Definition form_ok (s : App.State) : Prop :=
  forall f,
    App.modal s = Some f ->
    In (App.f_category f) categories /\ In (App.f_priority f) priorities.

(** The messages among the actions, in order. *)
Definition messages (actions : list App.Action) : list Projector.Data :=
  omap (fun a => match a with App.OnMessage d => Some d | _ => None end) actions.

(** Lower case of the letters A to Z, a stand-in for [toLowerCase] on
    texts of that alphabet. *)
Definition lower_ascii (c : ascii) : ascii :=
  let n := nat_of_ascii c in
  if ((65 <=? n) && (n <=? 90))%nat then ascii_of_nat (n + 32) else c.

Fixpoint lower (s : string) : string :=
  match s with
  | EmptyString => EmptyString
  | String c s' => String (lower_ascii c) (lower s')
  end.


(** *** What the handlers do *)

Section Cases.
Context {lib : Sqlite.Library}.

(** What the [INSERT] stores as [expiresAt] for a notice whose [expiresAt]
    is the string [e], or absent: [expiresAt || null] through the numeric
    affinity of the column. *)
Definition stored_expiresAt (e : option string) : option Sqlite.Numeric :=
  match e with
  | Some s => if String.eqb s "" then None else Some (Sqlite.numeric_affinity s)
  | None => None
  end.

(** What the handler of one message does: it applies an [ADD_NOTICE],
    applies a [DELETE_NOTICE], ignores the message, or catches an error. *)
Inductive message_case (data : Data) (now : Z) (s : State) :
    State -> list Effect -> Prop :=
| case_added n i t c cat p a x rowid d :
    data = add_notice n i ->
    insert_parameters (in_title n) (in_content n) (in_category n)
      (in_priority n) (in_author n) (or_null (in_expiresAt n))
      = Some (t, c, cat, p, a, x) ->
    Store.insert (db s) now t c cat p a x = Some (rowid, d) ->
    message_case data now s {| db := d; clients := clients s |}
      (Inserted rowid (Store.mkRow t c cat p a (Clock.CURRENT_TIMESTAMP now) x)
       :: sends (notice_added (Js.to_double rowid) n (Clock.toISOString now))
            (clients s))
| case_deleted i n key :
    data = Json {| ev_type := Some "DELETE_NOTICE"; ev_notice := n;
                   ev_id := i |} ->
    delete_parameter i = Some key ->
    message_case data now s
      match key with
      | Some k => {| db := Store.delete (db s) k; clients := clients s |}
      | None => s
      end
      (Deleted key :: sends (notice_deleted i) (clients s))
| case_ignored :
    message_case data now s s []
| case_failed err :
    message_case data now s s [ConsoleError err].

(** What the hub does with one input. *)
Inductive handled (s : State) : Input -> State -> list Effect -> Prop :=
| handled_connection c :
    handled s (Connection c)
      {| db := db s; clients := clients s ++ [mkClient c OPEN] |}
      [ConsoleLog "Client connected";
       Send c (INITIAL_STATE (Store.select_all (db s)))]
| handled_message c data now s' t :
    message_case data now s s' t ->
    handled s (Message c data now) s' t.

End Cases.

(** * Properties *)

#[local] Arguments Clock.CURRENT_TIMESTAMP : simpl never.
#[local] Arguments Clock.toISOString : simpl never.
#[local] Arguments Store.insert : simpl never.
#[local] Arguments Store.delete : simpl never.
#[local] Arguments Js.to_double : simpl never.
#[local] Arguments sends : simpl never.
#[local] Arguments String.eqb : simpl nomatch.

Ltac run_monad :=
  unfold on_message, on_connection, add_client, run_insert, run_delete,
    broadcast, destructure, JSON_parse, try_catch, emit, emit_all,
    put_db, get, throw, mret, mbind, M_ret, M_bind, bind, ret;
  simpl.

#[local] Arguments on_message : simpl never.
#[local] Arguments on_connection : simpl never.

Ltac rew H :=
  let R := fresh in
  pose proof H as R; unfold add_notice, delete_notice, complete in R;
  rewrite R; clear R.

(** ** Clock renderings *)

Example CURRENT_TIMESTAMP_epoch :
  Clock.CURRENT_TIMESTAMP 0 = "1970-01-01 00:00:00".
Proof. reflexivity. Qed.

Example CURRENT_TIMESTAMP_2024 :
  Clock.CURRENT_TIMESTAMP 1704110400123 = "2024-01-01 12:00:00".
Proof. reflexivity. Qed.

Example toISOString_2024 :
  Clock.toISOString 1704110400123 = "2024-01-01T12:00:00.123Z".
Proof. reflexivity. Qed.

Example toISOString_leap_day :
  Clock.toISOString 1709251199999 = "2024-02-29T23:59:59.999Z".
Proof. reflexivity. Qed.

(** The two renderings of one clock reading are never the same text: the
    eleventh character is a space in one and a [T] in the other. *)
Lemma renderings_differ now :
  Clock.CURRENT_TIMESTAMP now <> Clock.toISOString now.
Proof.
  unfold Clock.CURRENT_TIMESTAMP, Clock.toISOString, Clock.date_time.
  destruct (Clock.civil_from_days _) as [[y m] d].
  unfold Clock.pad4, Clock.pad3, Clock.pad2.
  intros H. injection H. intros. discriminate.
Qed.

(** ** Numbers *)

Lemma to_double_exact z : Z.abs z <= 2 ^ 53 -> Js.to_double z = z.
Proof.
  intros H. unfold Js.to_double.
  destruct (Z.leb_spec (Z.abs z) (2 ^ 53)); [reflexivity|lia].
Qed.

(** Beyond 2^53 the number an integer is read as stays beyond 2^53. *)
Lemma to_double_large z : 2 ^ 53 < Z.abs z -> 2 ^ 53 <= Z.abs (Js.to_double z).
Proof.
  intros H. unfold Js.to_double.
  destruct (Z.leb_spec (Z.abs z) (2 ^ 53)) as [|_]; [lia|].
  set (a := Z.abs z) in *.
  assert (53 <= Z.log2 a) as Hlog by (apply Z.log2_le_pow2; lia).
  set (e := Z.log2 a - 52).
  assert (1 <= e) as He by (unfold e; lia).
  assert (2 ^ 52 <= a / 2 ^ e) as Hq.
  { apply Z.div_le_lower_bound; [apply Z.pow_pos_nonneg; lia|].
    rewrite <- Z.pow_add_r by lia.
    replace (e + 52) with (Z.log2 a) by (unfold e; lia).
    apply Z.log2_spec. lia. }
  assert (2 <= 2 ^ e) as Hpow.
  { change 2 with (2 ^ 1) at 1. apply Z.pow_le_mono_r; lia. }
  set (q := a / 2 ^ e) in *.
  set (m := if a mod 2 ^ e <? 2 ^ (e - 1) then q
            else if 2 ^ (e - 1) <? a mod 2 ^ e then q + 1
                 else if Z.even q then q else q + 1).
  assert (q <= m) as Hm.
  { unfold m. destruct (_ <? _); [lia|].
    destruct (_ <? _); [lia|]. destruct (Z.even q); lia. }
  assert (2 ^ 53 <= m * 2 ^ e) by (change (2 ^ 53) with (2 ^ 52 * 2); nia).
  destruct (Z.sgn_spec z) as [[? ->]|[[? ->]|[? ->]]]; lia.
Qed.

(** Below 2^53 a number equals an id exactly when the integers are the
    same. *)
Lemma to_double_eq_exact z k :
  Z.abs k < 2 ^ 53 -> Js.to_double z = k <-> z = k.
Proof.
  intros Hk. destruct (Z.le_gt_cases (Z.abs z) (2 ^ 53)) as [Hz|Hz].
  - now rewrite to_double_exact.
  - apply to_double_large in Hz as Hd. split; intros <-; lia.
Qed.

(** Above 2^53 consecutive rowids are read as one number. *)
Example to_double_rounds :
  Js.to_double (2 ^ 53 + 3) = 2 ^ 53 + 4
  /\ Js.to_double (2 ^ 53 + 4) = 2 ^ 53 + 4
  /\ Js.to_double Store.MAX_ROWID = 2 ^ 63.
Proof. repeat split; vm_compute; reflexivity. Qed.

(** ** Stable insertion sort *)

Section Sorting.
Context {A : Type} (le : A -> A -> bool).

Lemma insert_sorted_perm x l : Permutation (Store.insert_sorted le x l) (x :: l).
Proof.
  induction l as [|y l IH]; simpl; [reflexivity|].
  destruct (le x y); [reflexivity|].
  rewrite IH. apply perm_swap.
Qed.

Lemma sort_by_perm l : Permutation (Store.sort_by le l) l.
Proof.
  induction l as [|x l IH]; simpl; [constructor|].
  change (foldr (Store.insert_sorted le) [] l) with (Store.sort_by le l).
  rewrite insert_sorted_perm. now constructor.
Qed.

Hypothesis le_total : forall a b, le a b = true \/ le b a = true.

Lemma insert_sorted_HdRel (x a : A) l :
  le a x = true -> HdRel (fun u v => le u v = true) a l ->
  HdRel (fun u v => le u v = true) a (Store.insert_sorted le x l).
Proof.
  intros Hax Hl. destruct l as [|y l]; simpl.
  - now constructor.
  - destruct (le x y); constructor; [assumption|].
    now inversion Hl.
Qed.

Lemma insert_sorted_Sorted x l :
  Sorted (fun u v => le u v = true) l ->
  Sorted (fun u v => le u v = true) (Store.insert_sorted le x l).
Proof.
  induction 1 as [|y l Hs IH Hd]; simpl.
  - repeat constructor.
  - destruct (le x y) eqn:E.
    + constructor; [now constructor|now constructor].
    + constructor; [assumption|].
      apply insert_sorted_HdRel; [|assumption].
      destruct (le_total x y); congruence.
Qed.

Lemma sort_by_Sorted l : Sorted (fun u v => le u v = true) (Store.sort_by le l).
Proof.
  induction l as [|x l IH]; simpl; [constructor|].
  now apply insert_sorted_Sorted.
Qed.

End Sorting.

(** ** The text order of [createdAt] *)

Lemma string_compare_refl s : String.compare s s = Eq.
Proof.
  induction s as [|a s IH]; simpl; [reflexivity|].
  unfold Ascii.compare. now rewrite N.compare_refl.
Qed.

Lemma string_compare_lt_trans s1 s2 s3 :
  String.compare s1 s2 = Lt -> String.compare s2 s3 = Lt ->
  String.compare s1 s3 = Lt.
Proof.
  revert s2 s3.
  induction s1 as [|a1 s1 IH]; intros [|a2 s2] [|a3 s3]; simpl; try congruence.
  unfold Ascii.compare.
  destruct (N.compare_spec (N_of_ascii a1) (N_of_ascii a2)) as [E12|L12|G12];
    destruct (N.compare_spec (N_of_ascii a2) (N_of_ascii a3)) as [E23|L23|G23];
    try congruence; intros H12 H23.
  - rewrite E12, E23, N.compare_refl. eauto.
  - rewrite E12. now apply N.compare_lt_iff in L23 as ->.
  - rewrite <- E23. now apply N.compare_lt_iff in L12 as ->.
  - assert (N_of_ascii a1 < N_of_ascii a3)%N as L by lia.
    now apply N.compare_lt_iff in L as ->.
Qed.

Lemma string_leb_trans s1 s2 s3 :
  String.leb s1 s2 = true -> String.leb s2 s3 = true -> String.leb s1 s3 = true.
Proof.
  unfold String.leb.
  destruct (String.compare s1 s2) eqn:E12; try discriminate;
    destruct (String.compare s2 s3) eqn:E23; try discriminate; intros _ _.
  - apply String.compare_eq_iff in E12, E23. subst. now rewrite string_compare_refl.
  - apply String.compare_eq_iff in E12. subst. now rewrite E23.
  - apply String.compare_eq_iff in E23. subst. now rewrite E12.
  - now rewrite (string_compare_lt_trans _ _ _ E12 E23).
Qed.

#[local] Instance newer_or_same_trans : Transitive newer_or_same.
Proof. intros a b c Hab Hbc. unfold newer_or_same in *. eauto using string_leb_trans. Qed.

(** ** The store *)

Lemma largest_rowid_ge (t : gmap Z Store.Row) k row :
  t !! k = Some row -> k <= Store.largest_rowid t.
Proof.
  intros H. apply elem_of_map_to_list in H.
  unfold Store.largest_rowid.
  induction (map_to_list t) as [|[k' r'] l IH]; simpl.
  - inversion H.
  - apply elem_of_cons in H as [H|H].
    + injection H as <- <-. lia.
    + specialize (IH H). lia.
Qed.

Lemma largest_rowid_nonneg (t : gmap Z Store.Row) : 0 <= Store.largest_rowid t.
Proof.
  unfold Store.largest_rowid. induction (map_to_list t) as [|x l IH]; simpl; lia.
Qed.

Lemma largest_rowid_le (t : gmap Z Store.Row) b :
  0 <= b -> (forall k row, t !! k = Some row -> k <= b) ->
  Store.largest_rowid t <= b.
Proof.
  intros Hb H. unfold Store.largest_rowid.
  assert (forall kr, kr ∈ map_to_list t -> fst kr <= b) as Hl.
  { intros [k row] Hin. apply elem_of_map_to_list in Hin. simpl. eauto. }
  induction (map_to_list t) as [|x l IH]; simpl; [lia|].
  assert (fst x <= b) by (apply Hl; left).
  assert (foldr Z.max 0 (map fst l) <= b) by (apply IH; intros; apply Hl; now right).
  lia.
Qed.

Lemma insert_some d now t c cat p a e rowid d' :
  Store.insert d now t c cat p a e = Some (rowid, d') ->
  rowid = Z.max (Store.sqlite_sequence d) (Store.largest_rowid (Store.notices d)) + 1
  /\ Store.sqlite_sequence d' = rowid
  /\ Store.notices d' =
       <[rowid := Store.mkRow t c cat p a (Clock.CURRENT_TIMESTAMP now) e]>
         (Store.notices d)
  /\ Store.notices d !! rowid = None.
Proof.
  unfold Store.insert. destruct (_ =? _); [discriminate|].
  intros [= <- <-]. simpl. repeat split.
  destruct (Store.notices d !! _) eqn:E; [|reflexivity].
  apply largest_rowid_ge in E. lia.
Qed.

Lemma insert_none d now t c cat p a e :
  Store.insert d now t c cat p a e = None <->
  Z.max (Store.sqlite_sequence d) (Store.largest_rowid (Store.notices d))
    = Store.MAX_ROWID.
Proof.
  unfold Store.insert. destruct (Z.eqb_spec (Z.max (Store.sqlite_sequence d)
    (Store.largest_rowid (Store.notices d))) Store.MAX_ROWID); split; congruence.
Qed.

(** The rows [SELECT *] returns are the rows of the table, each once. *)
Lemma select_all_perm d :
  Permutation (Store.select_all d)
    (map Store.to_object (map_to_list (Store.notices d))).
Proof.
  unfold Store.select_all, Store.scan.
  apply Permutation_map. now rewrite !sort_by_perm.
Qed.

Lemma select_all_elem d n :
  n ∈ Store.select_all d <->
  exists k row, Store.notices d !! k = Some row /\ n = Store.to_object (k, row).
Proof.
  rewrite (select_all_perm d). rewrite list_elem_of_fmap. split.
  - intros [[k row] [-> H]]. apply elem_of_map_to_list in H. eauto.
  - intros (k & row & H & ->). exists (k, row). split; [reflexivity|].
    now apply elem_of_map_to_list.
Qed.

(** While no rowid exceeds 2^53 the ids of a snapshot are the rowids. *)
Lemma select_all_ids d :
  (forall k row, Store.notices d !! k = Some row -> Z.abs k <= 2 ^ 53) ->
  map id (map Store.to_object (map_to_list (Store.notices d)))
  = (map_to_list (Store.notices d)).*1.
Proof.
  intros Hb. rewrite map_map. apply map_ext_in. intros [k row] Hin. simpl.
  apply to_double_exact. apply (Hb k row).
  apply elem_of_map_to_list. now apply list_elem_of_In.
Qed.

Lemma select_all_NoDup d :
  (forall k row, Store.notices d !! k = Some row -> Z.abs k <= 2 ^ 53) ->
  NoDup (map id (Store.select_all d)).
Proof.
  intros Hb. rewrite (select_all_perm d), select_all_ids by assumption.
  apply NoDup_fst_map_to_list.
Qed.

Lemma select_all_Sorted d : Sorted newer_or_same (Store.select_all d).
Proof.
  unfold Store.select_all.
  assert (Sorted (fun u v => Store.createdAt_desc u v = true)
            (Store.sort_by Store.createdAt_desc (Store.scan d))) as H.
  { apply sort_by_Sorted. intros a b. apply String.leb_total. }
  induction H as [|a l Hs IH Hd]; simpl; constructor; [assumption|].
  destruct Hd; simpl; constructor. assumption.
Qed.

Lemma format_id n : Hub.format n = n.
Proof. now destruct n. Qed.

Lemma map_format l : map Hub.format l = l.
Proof. induction l as [|n l IH]; simpl; [|rewrite format_id, IH]; reflexivity. Qed.

(** [broadcast] sends to the sockets whose [readyState] is [OPEN], in the
    order of the registry. *)
Lemma sends_open p cs :
  sends p cs
  = map (fun cl => Send (conn cl) p) (filter (fun cl => readyState cl = OPEN) cs).
Proof.
  unfold sends. f_equal. apply list_filter_iff. intros cl.
  unfold is_open. destruct (readyState cl); simpl; split; intros H;
    try exact I; try discriminate; try contradiction; reflexivity.
Qed.

Section Properties.
Context {lib : Sqlite.Library}.

(** ** One message *)

Lemma strict_eq_true v literal : strict_eq v literal = true <-> v = Some literal.
Proof.
  destruct v as [s|]; simpl; [|split; discriminate].
  rewrite String.eqb_eq. split; congruence.
Qed.

Lemma strict_eq_false v literal : strict_eq v literal = false <-> v <> Some literal.
Proof.
  rewrite <- strict_eq_true. destruct (strict_eq v literal); split; congruence.
Qed.

(** Every message makes the handler return, in one of four ways. *)
Lemma on_message_cases data now s :
  exists s' t,
    on_message data now s = (Returned tt, s', t) /\ message_case data now s s' t.
Proof.
  destruct data as [[ty n i]|text];
    [|eexists _, _; split; [reflexivity|constructor]].
  destruct (strict_eq ty "ADD_NOTICE") eqn:Ea.
  - apply strict_eq_true in Ea as ->.
    destruct n as [n|]; [|eexists _, _; split; [reflexivity|constructor]].
    destruct (insert_parameters (in_title n) (in_content n) (in_category n)
                (in_priority n) (in_author n) (or_null (in_expiresAt n)))
      as [[[[[[t c] cat] p] a] x]|] eqn:Ep.
    + destruct (Store.insert (db s) now t c cat p a x) as [[rowid d]|] eqn:Ei.
      * eexists _, _. split; cycle 1.
        { eapply case_added; [reflexivity|exact Ep|exact Ei]. }
        run_monad. rewrite Ep. simpl. rewrite Ei. reflexivity.
      * eexists _, _. split; cycle 1.
        { apply (case_failed _ _ _ RunError). }
        run_monad. rewrite Ep. simpl. rewrite Ei. reflexivity.
    + eexists _, _. split; cycle 1.
      { apply (case_failed _ _ _ RunError). }
      run_monad. rewrite Ep. reflexivity.
  - destruct (strict_eq ty "DELETE_NOTICE") eqn:Ed.
    + apply strict_eq_true in Ed as ->.
      destruct (delete_parameter i) as [key|] eqn:Ek.
      * eexists _, _. split; cycle 1.
        { eapply case_deleted; [reflexivity|exact Ek]. }
        run_monad. rewrite Ek. destruct key; reflexivity.
      * eexists _, _. split; cycle 1.
        { apply (case_failed _ _ _ RunError). }
        run_monad. rewrite Ek. reflexivity.
    + eexists _, _. split; cycle 1.
      { apply case_ignored. }
      run_monad. rewrite Ea, Ed. reflexivity.
Qed.

Lemma insert_parameters_complete t c cat p a e :
  insert_parameters (Some (Js.Str t)) (Some (Js.Str c)) (Some (Js.Str cat))
    (Some (Js.Str p)) (Some (Js.Str a)) (or_null (Js.Str <$> e))
  = Some (t, c, cat, p, a, stored_expiresAt e).
Proof.
  destruct e as [s|]; [|reflexivity].
  unfold or_null, stored_expiresAt. simpl.
  destruct (String.eqb s ""); reflexivity.
Qed.

(** The three ways of an [ADD_NOTICE] that carries a notice. *)
Lemma on_message_add_stored s now n i t c cat p a x rowid d :
  insert_parameters (in_title n) (in_content n) (in_category n)
    (in_priority n) (in_author n) (or_null (in_expiresAt n))
    = Some (t, c, cat, p, a, x) ->
  Store.insert (db s) now t c cat p a x = Some (rowid, d) ->
  on_message (add_notice n i) now s =
    (Returned tt, {| db := d; clients := clients s |},
     Inserted rowid (Store.mkRow t c cat p a (Clock.CURRENT_TIMESTAMP now) x)
     :: sends (notice_added (Js.to_double rowid) n (Clock.toISOString now))
          (clients s)).
Proof.
  intros Hp H. unfold add_notice. run_monad. rewrite Hp. simpl. now rewrite H.
Qed.

Lemma on_message_add_exhausted s now n i t c cat p a x :
  insert_parameters (in_title n) (in_content n) (in_category n)
    (in_priority n) (in_author n) (or_null (in_expiresAt n))
    = Some (t, c, cat, p, a, x) ->
  Store.insert (db s) now t c cat p a x = None ->
  on_message (add_notice n i) now s = (Returned tt, s, [ConsoleError RunError]).
Proof.
  intros Hp H. unfold add_notice. run_monad. rewrite Hp. simpl. now rewrite H.
Qed.

Lemma on_message_add_refused s now n i :
  insert_parameters (in_title n) (in_content n) (in_category n)
    (in_priority n) (in_author n) (or_null (in_expiresAt n)) = None ->
  on_message (add_notice n i) now s = (Returned tt, s, [ConsoleError RunError]).
Proof. intros Hp. unfold add_notice. run_monad. now rewrite Hp. Qed.

Lemma on_message_add s now t c cat p a e i rowid d :
  Store.insert (db s) now t c cat p a (stored_expiresAt e) = Some (rowid, d) ->
  on_message (add_notice (complete t c cat p a e) i) now s =
    (Returned tt, {| db := d; clients := clients s |},
     Inserted rowid
       (Store.mkRow t c cat p a (Clock.CURRENT_TIMESTAMP now) (stored_expiresAt e))
     :: sends (NOTICE_ADDED (new_notice rowid t c cat p a (Js.Str <$> e) now))
          (clients s)).
Proof.
  intros H.
  apply (on_message_add_stored s now (complete t c cat p a e) i _ _ _ _ _ _ _ _
           (insert_parameters_complete t c cat p a e) H).
Qed.

Lemma on_message_add_full s now t c cat p a e i :
  Store.insert (db s) now t c cat p a (stored_expiresAt e) = None ->
  on_message (add_notice (complete t c cat p a e) i) now s =
    (Returned tt, s, [ConsoleError RunError]).
Proof.
  intros H.
  apply (on_message_add_exhausted s now (complete t c cat p a e) i _ _ _ _ _ _
           (insert_parameters_complete t c cat p a e) H).
Qed.

(** A notice of strings either has its five fields, and they are stored as
    they are, or lacks one. *)
Lemma plain_notice_cases n :
  plain_notice n ->
  (exists t c cat p a,
     in_title n = Some (Js.Str t) /\ in_content n = Some (Js.Str c)
     /\ in_category n = Some (Js.Str cat) /\ in_priority n = Some (Js.Str p)
     /\ in_author n = Some (Js.Str a)
     /\ insert_parameters (in_title n) (in_content n) (in_category n)
          (in_priority n) (in_author n) (or_null (in_expiresAt n))
        = Some (t, c, cat, p, a,
                Sqlite.numeric_affinity <$> Js.text (or_null (in_expiresAt n))))
  \/ lacks_required n.
Proof.
  unfold lacks_required, plain_notice. destruct n as [t c cat p a e]; simpl.
  intros Hp. repeat (apply andb_prop_elim in Hp as [Hp ?]).
  destruct t as [[| |t|]|]; try contradiction; [|tauto].
  destruct c as [[| |c|]|]; try contradiction; [|tauto].
  destruct cat as [[| |cat|]|]; try contradiction; [|tauto].
  destruct p as [[| |p|]|]; try contradiction; [|tauto].
  destruct a as [[| |a|]|]; try contradiction; [|tauto].
  left. exists t, c, cat, p, a. repeat split.
  destruct (or_null e) as [[| |?|]|]; try contradiction; reflexivity.
Qed.

(** A notice of strings that lacks a required field is refused by the
    [NOT NULL] constraint. *)
Lemma insert_parameters_lacking n :
  lacks_required n -> plain_notice n ->
  insert_parameters (in_title n) (in_content n) (in_category n)
    (in_priority n) (in_author n) (or_null (in_expiresAt n)) = None.
Proof.
  unfold lacks_required, plain_notice. destruct n as [t c cat p a e]; simpl.
  intros H Hp.
  repeat (apply andb_prop_elim in Hp as [Hp ?]).
  destruct (or_null e) as [[| |?|]|]; try contradiction;
    destruct t as [[| |?|]|]; try contradiction;
    destruct c as [[| |?|]|]; try contradiction;
    destruct cat as [[| |?|]|]; try contradiction;
    destruct p as [[| |?|]|]; try contradiction;
    destruct a as [[| |?|]|]; try contradiction;
    try reflexivity; intuition discriminate.
Qed.

Lemma on_message_add_lacking s now n i :
  lacks_required n -> plain_notice n ->
  on_message (add_notice n i) now s = (Returned tt, s, [ConsoleError RunError]).
Proof.
  intros H Hp. unfold add_notice. run_monad.
  now rewrite insert_parameters_lacking.
Qed.

Lemma on_message_add_no_notice s now i :
  on_message (Json {| ev_type := Some "ADD_NOTICE"; ev_notice := None; ev_id := i |})
    now s = (Returned tt, s, [ConsoleError TypeError]).
Proof. reflexivity. Qed.

Lemma on_message_delete s now i n :
  on_message (delete_notice i n) now s =
    (Returned tt,
     {| db := Store.delete (db s) (Js.to_double i); clients := clients s |},
     Deleted (Some (Js.to_double i))
     :: sends (NOTICE_DELETED (Js.to_double i)) (clients s)).
Proof. reflexivity. Qed.

(** A [DELETE_NOTICE] without an id binds null: the statement runs, matches
    no row, and the fact is broadcast without an id. *)
Lemma on_message_delete_no_id s now n :
  on_message (Json {| ev_type := Some "DELETE_NOTICE"; ev_notice := n; ev_id := None |})
    now s
  = (Returned tt, s, Deleted None :: sends (NOTICE_DELETED_untyped None) (clients s)).
Proof. reflexivity. Qed.

Lemma on_message_unknown_type s now ev :
  ev_type ev <> Some "ADD_NOTICE" -> ev_type ev <> Some "DELETE_NOTICE" ->
  on_message (Json ev) now s = (Returned tt, s, []).
Proof.
  intros Ha Hd. apply strict_eq_false in Ha, Hd. run_monad.
  now rewrite Ha, Hd.
Qed.

Lemma on_message_not_json s now text :
  on_message (NotJson text) now s = (Returned tt, s, [ConsoleError SyntaxError]).
Proof. reflexivity. Qed.

Lemma on_connection_eq s c :
  on_connection c s =
    (Returned tt,
     {| db := db s; clients := clients s ++ [mkClient c OPEN] |},
     [ConsoleLog "Client connected";
      Send c (INITIAL_STATE (Store.select_all (db s)))]).
Proof. run_monad. now rewrite map_format. Qed.

Lemma handle_handled i s :
  exists s' t, handle i s = (Returned tt, s', t) /\ handled s i s' t.
Proof.
  destruct i as [c|c data now]; unfold handle.
  - rewrite on_connection_eq. eexists _, _. split; [reflexivity|constructor].
  - destruct (on_message_cases data now s) as (s' & t & H & Hc).
    exists s', t. split; [assumption|now constructor].
Qed.

(** ** Runs *)

Lemma sends_quiet p cs : Forall quiet (sends p cs).
Proof.
  unfold sends. induction (filter is_open cs); simpl; constructor; simpl; auto.
Qed.

Lemma message_case_shape data now s s' t :
  message_case data now s s' t -> step_shape s s' t.
Proof.
  intros [n i t0 c cat p a x rowid d _ _ E|i n key _ _| |err].
  - apply insert_some in E as (Hid & Hseq & Hn & _).
    eapply shape_insert; simpl; eauto using sends_quiet. lia.
  - eapply shape_delete; eauto using sends_quiet; now destruct key.
  - apply shape_quiet; [reflexivity|constructor].
  - apply shape_quiet; [reflexivity|repeat constructor].
Qed.

Lemma handled_shape s i s' t : handled s i s' t -> step_shape s s' t.
Proof.
  intros [c|c data now s1 t1 Hc].
  - apply shape_quiet; [reflexivity|repeat constructor].
  - eapply message_case_shape, Hc.
Qed.

Lemma handle_shape i s :
  exists s' t, handle i s = (Returned tt, s', t) /\ step_shape s s' t.
Proof.
  destruct (handle_handled i s) as (s' & t & H & Hh).
  eauto using handled_shape.
Qed.

Lemma run_cons i rest s s1 t1 :
  handle i s = (Returned tt, s1, t1) ->
  run (i :: rest) s =
    (outcome_of (run rest) s1, state_after (run rest) s1,
     t1 ++ effects_of (run rest) s1).
Proof.
  intros H. unfold outcome_of, state_after, effects_of.
  change (run (i :: rest)) with (handle i ≫= fun _ => run rest).
  unfold mbind, M_bind, bind. rewrite H.
  now destruct (run rest s1) as [[o s2] t2].
Qed.

(** No exception leaves the event loop. *)
Lemma run_returns inputs s : outcome_of (run inputs) s = Returned tt.
Proof.
  revert s. induction inputs as [|i rest IH]; intros s; [reflexivity|].
  destruct (handle_shape i s) as (s1 & t1 & H & _).
  unfold outcome_of at 1. rewrite (run_cons i rest s s1 t1 H). simpl. apply IH.
Qed.

Lemma run_two m1 m2 s s1 t1 s2 t2 :
  handle m1 s = (Returned tt, s1, t1) ->
  handle m2 s1 = (Returned tt, s2, t2) ->
  run [m1; m2] s = (Returned tt, s2, t1 ++ t2).
Proof.
  intros H1 H2. rewrite (run_cons _ _ _ _ _ H1).
  unfold outcome_of, state_after, effects_of.
  rewrite (run_cons _ _ _ _ _ H2). simpl. now rewrite app_nil_r.
Qed.

(** Induction on a run, input by input. *)
Lemma run_induction (P : State -> list Input -> list Effect -> State -> Prop) :
  (forall s, P s [] [] s) ->
  (forall s i s1 t1 rest t2 s2,
     handled s i s1 t1 -> P s1 rest t2 s2 -> P s (i :: rest) (t1 ++ t2) s2) ->
  forall inputs s,
    P s inputs (effects_of (run inputs) s) (state_after (run inputs) s).
Proof.
  intros Hnil Hcons inputs. induction inputs as [|i rest IH]; intros s.
  - apply Hnil.
  - destruct (handle_handled i s) as (s1 & t1 & H & Hh).
    unfold effects_of, state_after. rewrite (run_cons i rest s s1 t1 H). simpl.
    eapply Hcons; [exact Hh|apply IH].
Qed.

Lemma inserted_ids_app t1 t2 :
  inserted_ids (t1 ++ t2) = inserted_ids t1 ++ inserted_ids t2.
Proof. apply omap_app. Qed.

Lemma inserted_ids_quiet t : Forall quiet t -> inserted_ids t = [].
Proof.
  induction 1 as [|e t He _ IH]; [reflexivity|].
  destruct e; simpl in *; tauto.
Qed.

Lemma replay_quiet t m : Forall quiet t -> replay t m = m.
Proof.
  induction 1 as [|e t He _ IH]; [reflexivity|].
  destruct e; simpl in *; tauto.
Qed.

Lemma replay_app t1 t2 m : replay (t1 ++ t2) m = replay t2 (replay t1 m).
Proof. apply fold_left_app. Qed.

(** The ids a run inserts increase strictly, above the sequence counter the
    run started from; the counter never decreases. *)
Lemma run_inserted_ids inputs s :
  StronglySorted Z.lt (inserted_ids (effects_of (run inputs) s))
  /\ Forall (fun k => Store.sqlite_sequence (db s) < k)
       (inserted_ids (effects_of (run inputs) s))
  /\ Store.sqlite_sequence (db s)
       <= Store.sqlite_sequence (db (state_after (run inputs) s)).
Proof.
  revert s. induction inputs as [|i rest IH]; intros s.
  - simpl. repeat constructor. unfold state_after. simpl. lia.
  - destruct (handle_shape i s) as (s1 & t1 & H & Hs).
    unfold effects_of at 1 2, state_after.
    rewrite (run_cons i rest s s1 t1 H). simpl.
    rewrite inserted_ids_app.
    destruct (IH s1) as (Hsorted & Hall & Hseq).
    destruct Hs as [Hdb Hq | rowid row t' Hn Hlt Hseq1 -> Hq
                   | key t' Hn Hseq1 -> Hq].
    + rewrite (inserted_ids_quiet _ Hq). simpl. rewrite Hdb in *. auto.
    + simpl. rewrite (inserted_ids_quiet _ Hq). simpl.
      rewrite Hseq1 in *. repeat split.
      * constructor; assumption.
      * constructor; [assumption|].
        eapply Forall_impl; [exact Hall|]. simpl. intros; lia.
      * lia.
    + simpl. rewrite (inserted_ids_quiet _ Hq). simpl.
      rewrite Hseq1 in *. auto.
Qed.

(** The table after a run is the table before it with the run's store
    operations applied in order. *)
Lemma run_replay inputs s :
  Store.notices (db (state_after (run inputs) s)) =
    replay (effects_of (run inputs) s) (Store.notices (db s)).
Proof.
  revert s. induction inputs as [|i rest IH]; intros s; [reflexivity|].
  destruct (handle_shape i s) as (s1 & t1 & H & Hs).
  unfold effects_of at 1, state_after at 1.
  rewrite (run_cons i rest s s1 t1 H). simpl.
  rewrite replay_app, IH. f_equal.
  destruct Hs as [Hdb Hq | rowid row t' Hn Hlt Hseq1 -> Hq
                 | key t' Hn Hseq1 -> Hq].
  - now rewrite replay_quiet, Hdb.
  - simpl. unfold replay in *. simpl. fold (replay t'). now rewrite replay_quiet.
  - change (replay (Deleted key :: t') ?m)
      with (replay t' (apply_effect m (Deleted key))).
    now rewrite replay_quiet.
Qed.

(** A row is in the replayed table when the last operation on its key
    inserted it, or when it was there and no operation touched its key. *)
Lemma replay_lookup t : forall m k row,
  replay t m !! k = Some row <->
  (m !! k = Some row /\ Forall (fun e => ~ touches k e) t)
  \/ (exists t1 t2, t = t1 ++ Inserted k row :: t2
                    /\ Forall (fun e => ~ touches k e) t2).
Proof.
  induction t as [|e t IH]; intros m k row.
  - simpl. split.
    + intros H. left. split; [assumption|constructor].
    + intros [[H _]|(t1 & t2 & H & _)]; [assumption|].
      now destruct t1.
  - change (replay (e :: t) m) with (replay t (apply_effect m e)).
    rewrite IH. split.
    + intros [[Hl Hu]|(t1 & t2 & -> & Hu)].
      * destruct e as [msg|err|k' r|[k'|]|to ev]; simpl in Hl;
          try (left; split; [assumption|constructor; simpl; tauto]).
        -- destruct (decide (k' = k)) as [->|Hne].
           ++ rewrite lookup_insert_eq in Hl. injection Hl as ->.
              right. exists [], t. split; [reflexivity|assumption].
           ++ rewrite lookup_insert_ne in Hl by assumption.
              left. split; [assumption|constructor; simpl; tauto].
        -- destruct (decide (k' = k)) as [->|Hne].
           ++ rewrite lookup_delete_eq in Hl. discriminate.
           ++ rewrite lookup_delete_ne in Hl by assumption.
              left. split; [assumption|constructor; simpl; tauto].
      * right. exists (e :: t1), t2. split; [reflexivity|assumption].
    + intros [[Hl Hu]|(t1 & t2 & Heq & Hu)].
      * apply Forall_cons in Hu as [He Hu]. left. split; [|assumption].
        destruct e as [msg|err|k' r|[k'|]|to ev]; simpl in *; try assumption.
        -- now rewrite lookup_insert_ne.
        -- now rewrite lookup_delete_ne.
      * destruct t1 as [|e' t1]; simpl in Heq; injection Heq as -> ->.
        -- left. split; [|assumption]. simpl. apply lookup_insert_eq.
        -- right. exists t1, t2. split; [reflexivity|assumption].
Qed.

Lemma inserted_ids_elem k row t : Inserted k row ∈ t -> k ∈ inserted_ids t.
Proof.
  intros H. apply list_elem_of_omap. exists (Inserted k row). split; auto.
Qed.

(** The table after one input is the table before it with the store
    operations of the input replayed. *)
Lemma handled_replay s i s1 t1 :
  handled s i s1 t1 ->
  Store.notices (db s1) = replay t1 (Store.notices (db s)).
Proof.
  intros Hh. apply handled_shape in Hh.
  destruct Hh as [Hdb Hq | rowid row t' Hn Hlt Hseq1 -> Hq
                 | key t' Hn Hseq1 -> Hq].
  - now rewrite replay_quiet, Hdb.
  - change (replay (Inserted rowid row :: t') ?m)
      with (replay t' (apply_effect m (Inserted rowid row))).
    now rewrite replay_quiet.
  - change (replay (Deleted key :: t') ?m)
      with (replay t' (apply_effect m (Deleted key))).
    now rewrite replay_quiet.
Qed.

Lemma handled_clients s i s1 t1 :
  handled s i s1 t1 ->
  clients s1 = match i with
               | Connection c => clients s ++ [mkClient c OPEN]
               | Message _ _ _ => clients s
               end.
Proof.
  intros [c|c data now s' t Hc]; [reflexivity|].
  destruct Hc as [? ? ? ? ? ? ? ? ? ? _ _ _|? ? [k|] _ _| |]; reflexivity.
Qed.

(** ** ADD_NOTICE *)

(** C1, amended: the hub does not validate the notice. Whatever strings the
    five required fields hold (the empty string and values outside the
    enumerated sets included), the command is applied while a rowid is
    left: the handler returns, one row with exactly these values is
    inserted under a key the table does not hold, and after the insertion
    one [NOTICE_ADDED] with these values is sent to each socket of the
    registry whose [readyState] is [OPEN], in the order of the registry,
    and nothing else happens. A command whose fields are strings or
    missing is dropped, with the state unchanged and nothing sent, when a
    required field is missing or null. *)
Theorem add_notice_is_not_validated s now i :
  (forall t c cat p a e,
     ~ rowids_exhausted (db s) ->
     exists rowid,
       Store.notices (db s) !! rowid = None
       /\ on_message (add_notice (complete t c cat p a e) i) now s =
            (Returned tt,
             {| db := {| Store.notices :=
                           <[rowid := Store.mkRow t c cat p a
                                        (Clock.CURRENT_TIMESTAMP now)
                                        (stored_expiresAt e)]>
                             (Store.notices (db s));
                         Store.sqlite_sequence := rowid |};
                clients := clients s |},
             Inserted rowid
               (Store.mkRow t c cat p a (Clock.CURRENT_TIMESTAMP now)
                  (stored_expiresAt e))
             :: map (fun cl =>
                       Send (conn cl)
                         (NOTICE_ADDED
                            {| id := Js.to_double rowid; title := t;
                               content := c; category := cat; priority := p;
                               author := a;
                               createdAt := Clock.toISOString now;
                               expiresAt := Js.Str <$> e |}))
                  (filter (fun cl => readyState cl = OPEN) (clients s))))
  /\ (forall n,
        lacks_required n -> plain_notice n ->
        on_message (add_notice n i) now s =
          (Returned tt, s, [ConsoleError RunError])).
Proof.
  split.
  - intros t c cat p a e Hfree.
    destruct (Store.insert (db s) now t c cat p a (stored_expiresAt e))
      as [[rowid d]|] eqn:E.
    + exists rowid. rewrite (on_message_add _ _ _ _ _ _ _ _ _ _ _ E).
      rewrite sends_open.
      apply insert_some in E as (_ & Hseq & Hn & Hfresh).
      split; [assumption|]. destruct d as [m q]; simpl in *. now subst.
    + apply insert_none in E. contradiction.
  - intros n Hn Hp. now apply on_message_add_lacking.
Qed.

(** What an applied [ADD_NOTICE] broadcasts against what it wrote: the id
    is the number the rowid is read as, the five required fields are those
    of the row, and the insertion comes before every send; [createdAt] is
    another text than the stored one, and [expiresAt] is the command's own
    value where the row holds what the column made of [expiresAt || null]. *)
Lemma add_notice_row_and_fact s now t c cat p a e i rowid d :
  Store.insert (db s) now t c cat p a (stored_expiresAt e) = Some (rowid, d) ->
  exists row fact,
    effects_of (on_message (add_notice (complete t c cat p a e) i) now) s
      = Inserted rowid row :: sends (NOTICE_ADDED fact) (clients s)
    /\ Store.notices d !! rowid = Some row
    /\ id fact = Js.to_double rowid
    /\ title fact = Store.r_title row
    /\ content fact = Store.r_content row
    /\ category fact = Store.r_category row
    /\ priority fact = Store.r_priority row
    /\ author fact = Store.r_author row
    /\ createdAt fact <> Store.r_createdAt row
    /\ expiresAt fact = Js.Str <$> e
    /\ Store.r_expiresAt row = stored_expiresAt e.
Proof.
  intros E. unfold effects_of. rewrite (on_message_add _ _ _ _ _ _ _ _ _ _ _ E).
  eexists _, _. split; [reflexivity|].
  apply insert_some in E as (_ & _ & -> & _).
  rewrite lookup_insert_eq. simpl.
  repeat split. intros H. symmetry in H. now apply renderings_differ in H.
Qed.

(** C2, evaluated: the command of the specification's end-to-end scenario,
    handled at noon with one open connection, then a second connection.
    The row is written before the fact is sent and both carry id 1, but the
    fact's [createdAt] is the hub's ISO rendering of its own clock while the
    row, which the snapshot of the second connection shows, holds the
    store's [CURRENT_TIMESTAMP] text. *)
Theorem add_notice_fact_differs_from_row :
  effects_of
    (run [Message 1 (add_notice exam_schedule None) noon; Connection 2])
    one_viewer
  = [Inserted 1
       (Store.mkRow "Exam Schedule" "Finals begin Monday" "Exam" "High"
          "Registrar" "2024-01-01 12:00:00" None);
     Send 1
       (NOTICE_ADDED
          (mkNotice 1 "Exam Schedule" "Finals begin Monday" "Exam" "High"
             "Registrar" "2024-01-01T12:00:00.123Z" None));
     ConsoleLog "Client connected";
     Send 2
       (INITIAL_STATE
          [mkNotice 1 "Exam Schedule" "Finals begin Monday" "Exam" "High"
             "Registrar" "2024-01-01 12:00:00" None])].
Proof. vm_compute. reflexivity. Qed.

(** The same run seen from the two connections: the one that was open when
    the notice was added mirrors the hub's [createdAt], the one that
    connected afterwards mirrors the stored one. *)
Example mirrors_disagree_on_createdAt :
  let t := effects_of
             (run [Connection 1; Message 1 (add_notice exam_schedule None) noon;
                   Connection 2]) initial in
  map createdAt (mirror 1 t) = ["2024-01-01T12:00:00.123Z"]
  /\ map createdAt (mirror 2 t) = ["2024-01-01 12:00:00"].
Proof. split; vm_compute; reflexivity. Qed.

(** The end-to-end scenario of the specification: A and B connect, A adds a
    notice, B deletes it, C connects. *)
Example end_to_end_scenario :
  let t := effects_of
             (run [Connection 1; Connection 2;
                   Message 1 (add_notice exam_schedule None) noon;
                   Message 2 (delete_notice 1 None) (noon + 5000);
                   Connection 3]) initial in
  let added :=
    NOTICE_ADDED
      (mkNotice 1 "Exam Schedule" "Finals begin Monday" "Exam" "High"
         "Registrar" "2024-01-01T12:00:00.123Z" None) in
  received 1 t = map Typed [INITIAL_STATE []; added; NOTICE_DELETED 1]
  /\ received 2 t = map Typed [INITIAL_STATE []; added; NOTICE_DELETED 1]
  /\ received 3 t = map Typed [INITIAL_STATE []]
  /\ mirror 1 t = [] /\ mirror 2 t = [] /\ mirror 3 t = [].
Proof. repeat split; vm_compute; reflexivity. Qed.

(** Values the hub takes although no command is declared with them: a
    [DELETE_NOTICE] without an id runs the [DELETE] with null and
    broadcasts; a title that is a number leaves what is stored to the
    library, and the fact carries the number. *)
Example undeclared_values :
  effects_of
    (on_message
       (Json {| ev_type := Some "DELETE_NOTICE"; ev_notice := None;
                ev_id := None |}) noon) one_viewer
  = [Deleted None; Send 1 (NOTICE_DELETED_untyped None)]
  /\ (Sqlite.insert_values
        [Some (Js.Number 5); Some (Js.Str "c"); Some (Js.Str "Exam");
         Some (Js.Str "Low"); Some (Js.Str "x"); None]
      = Some ("5.0", "c", "Exam", "Low", "x", None) ->
      effects_of
        (on_message
           (add_notice
              (mkNoticeInput (Some (Js.Number 5)) (Some (Js.Str "c"))
                 (Some (Js.Str "Exam")) (Some (Js.Str "Low"))
                 (Some (Js.Str "x")) None) None) noon) one_viewer
      = [Inserted 1
           (Store.mkRow "5.0" "c" "Exam" "Low" "x" "2024-01-01 12:00:00" None);
         Send 1
           (NOTICE_ADDED_untyped 1 (Some (Js.Number 5)) (Some (Js.Str "c"))
              (Some (Js.Str "Exam")) (Some (Js.Str "Low")) (Some (Js.Str "x"))
              "2024-01-01T12:00:00.123Z" None)]).
Proof.
  split; [reflexivity|]. intros H.
  unfold effects_of, add_notice. run_monad.
  unfold insert_parameters. simpl.
  change (or_null None) with (@None Js.Value). rewrite H. reflexivity.
Qed.

(** ** Snapshots and ids *)

Lemma holds_fresh d st k :
  holds d st -> fst st < k -> forall f, (k, f) ∉ snd st.
Proof.
  intros (_ & _ & _ & Hin & Hb) Hk f Hf.
  apply Hin in Hf as (row & Hrow & _). apply Hb in Hrow. lia.
Qed.

(** One input does to the database what the command does to the set. *)
Lemma holds_step s st i :
  holds (db s) st -> conforming i -> fst st + 1 < 2 ^ 53 ->
  holds (db (state_after (handle i) s)) (Spec.command st i)
  /\ fst (Spec.command st i) <= fst st + 1.
Proof.
  intros Hh Hc Hlt.
  assert (holds (db s) st /\ fst st <= fst st + 1) as Hsame by (split; [assumption|lia]).
  destruct i as [c|c [[ty n i]|text] now]; unfold state_after, handle.
  - now rewrite on_connection_eq.
  - simpl in Hc. unfold Spec.command. simpl ev_type. simpl ev_notice. simpl ev_id.
    destruct (strict_eq ty "ADD_NOTICE") eqn:Ea.
    + apply strict_eq_true in Ea as ->.
      destruct n as [n|]; [|now rewrite on_message_add_no_notice].
      destruct (plain_notice_cases n Hc)
        as [(t & c' & cat & p & a & Ht & Hc' & Hcat & Hp & Ha & Hpar)|Hl].
      * destruct Hh as (Hseq & H0 & Hnd & Hin & Hb).
        assert (Store.largest_rowid (Store.notices (db s)) <= fst st) as Hlarge.
        { apply largest_rowid_le; [assumption|]. intros k row Hk.
          apply Hb in Hk. lia. }
        destruct (Store.insert (db s) now t c' cat p a
                    (Sqlite.numeric_affinity <$> Js.text (or_null (in_expiresAt n))))
          as [[rowid d]|] eqn:E.
        2:{ apply insert_none in E. unfold Store.MAX_ROWID in E. lia. }
        rew (on_message_add_stored s now n i _ _ _ _ _ _ _ _ Hpar E).
        apply insert_some in E as (Hid & Hseq' & Hn & Hfresh).
        assert (rowid = fst st + 1) as -> by lia.
        destruct n as [nt nc ncat np na ne]. simpl in Ht, Hc', Hcat, Hp, Ha.
        subst nt nc ncat np na. simpl. split; [|lia].
        unfold holds. simpl. split; [assumption|]. split; [lia|]. split; [|split].
        -- rewrite map_app. simpl. apply NoDup_app. split; [assumption|].
           split; [|apply NoDup_singleton].
           intros k Hk Hk'. apply list_elem_of_singleton in Hk'. subst k.
           apply list_elem_of_fmap in Hk as ([k f] & Heq & Hk). simpl in Heq.
           subst k. apply Hin in Hk as (row & Hrow & _). apply Hb in Hrow. lia.
        -- intros k f. rewrite elem_of_app, list_elem_of_singleton, Hn, Hin.
           split.
           ++ intros [(row & Hrow & Hf)|[= -> ->]].
              ** exists row. split; [|assumption].
                 rewrite lookup_insert_ne; [assumption|].
                 apply Hb in Hrow. lia.
              ** eexists. split; [apply lookup_insert_eq|reflexivity].
           ++ intros (row & Hrow & Hf).
              destruct (decide (fst st + 1 = k)) as [<-|Hne].
              ** rewrite lookup_insert_eq in Hrow. injection Hrow as <-.
                 right. now rewrite <- Hf.
              ** rewrite lookup_insert_ne in Hrow by assumption. eauto.
        -- intros k row. rewrite Hn.
           destruct (decide (fst st + 1 = k)) as [<-|Hne].
           ++ intros _. lia.
           ++ rewrite lookup_insert_ne by assumption. intros Hk.
              apply Hb in Hk. lia.
      * rew (on_message_add_lacking s now n i Hl Hc). simpl.
        destruct n as [[[| |?|]|] [[| |?|]|] [[| |?|]|] [[| |?|]|] [[| |?|]|] ?];
          try exact Hsame;
          unfold lacks_required in Hl; simpl in Hl; intuition discriminate.
    + destruct (strict_eq ty "DELETE_NOTICE") eqn:Ed.
      * apply strict_eq_true in Ed as ->.
        destruct i as [[| |?|]|]; try contradiction;
          [|now rewrite on_message_delete_no_id].
        rew (on_message_delete s now z n). simpl.
        destruct Hh as (Hseq & H0 & Hnd & Hin & Hb).
        split; [|lia]. unfold holds, Store.delete. simpl.
        split; [assumption|]. split; [assumption|]. split; [|split].
        -- clear -Hnd. induction (snd st) as [|x l IH]; [constructor|].
           simpl in Hnd. apply NoDup_cons in Hnd as [Hx Hnd].
           rewrite filter_cons. destruct (decide (fst x <> z)); [|auto].
           simpl. apply NoDup_cons. split; [|auto].
           intros Hin. apply Hx. apply list_elem_of_fmap in Hin as (y & Hy & Hin).
           apply list_elem_of_filter in Hin as [_ Hin].
           apply list_elem_of_fmap. eauto.
        -- intros k f. rewrite list_elem_of_filter, Hin. simpl.
           split.
           ++ intros (Hne & row & Hrow & Hf). exists row. split; [|assumption].
              rewrite lookup_delete_ne; [assumption|].
              intros Heq. apply Hne. apply Hb in Hrow.
              assert (z = k) by (apply to_double_eq_exact; [lia|assumption]).
              simpl. congruence.
           ++ intros (row & Hrow & Hf).
              destruct (decide (Js.to_double z = k)) as [Heq|Hne].
              ** rewrite Heq, lookup_delete_eq in Hrow. discriminate.
              ** rewrite lookup_delete_ne in Hrow by assumption.
                 split; [|eauto]. intros ->. apply Hne.
                 apply to_double_exact. apply Hb in Hrow. lia.
        -- intros k row Hk.
           destruct (decide (Js.to_double z = k)) as [Heq|Hne].
           ++ rewrite Heq, lookup_delete_eq in Hk. discriminate.
           ++ rewrite lookup_delete_ne in Hk by assumption. exact (Hb k row Hk).
      * apply strict_eq_false in Ea, Ed.
        now rewrite on_message_unknown_type.
  - now rewrite on_message_not_json.
Qed.

Lemma state_after_cons i rest s :
  state_after (run (i :: rest)) s
  = state_after (run rest) (state_after (handle i) s).
Proof.
  destruct (handle_shape i s) as (s1 & t1 & H & _).
  unfold state_after at 1 3. now rewrite (run_cons _ _ _ _ _ H), H.
Qed.

Lemma effects_of_cons i rest s :
  effects_of (run (i :: rest)) s
  = effects_of (handle i) s
    ++ effects_of (run rest) (state_after (handle i) s).
Proof.
  destruct (handle_shape i s) as (s1 & t1 & H & _).
  unfold effects_of at 1 2, state_after. now rewrite (run_cons _ _ _ _ _ H), H.
Qed.

(** A run does to the database what its commands do to the set. *)
Lemma holds_run inputs : forall s st,
  holds (db s) st -> Forall conforming inputs ->
  fst st + Z.of_nat (length inputs) < 2 ^ 53 ->
  holds (db (state_after (run inputs) s)) (fold_left Spec.command inputs st).
Proof.
  induction inputs as [|i rest IH]; intros s st Hh Hc Hlt; [exact Hh|].
  apply Forall_cons in Hc as [Hi Hc]. simpl length in Hlt.
  rewrite state_after_cons. simpl.
  destruct (holds_step s st i Hh Hi ltac:(lia)) as [Hh1 Hle].
  apply IH; [assumption|assumption|lia].
Qed.

Lemma holds_empty : holds Store.empty (0, []).
Proof.
  unfold holds. simpl.
  split; [reflexivity|]. split; [lia|]. split; [constructor|]. split.
  - intros k f. split; [intros H; inversion H|].
    intros (row & H & _). simpl in H. now rewrite lookup_empty in H.
  - intros k row H. simpl in H. now rewrite lookup_empty in H.
Qed.

(** The snapshot of a database that holds a set, below 2^53, is the set. *)
Lemma holds_snapshot d st :
  holds d st -> fst st < 2 ^ 53 ->
  NoDup (map id (Store.select_all d))
  /\ map entry (Store.select_all d) ≡ₚ snd st.
Proof.
  intros (Hseq & H0 & Hnd & Hin & Hb) Hlt.
  assert (NoDup (map id (Store.select_all d))) as Hids.
  { apply select_all_NoDup. intros k row Hk. apply Hb in Hk. lia. }
  split; [assumption|].
  apply NoDup_Permutation.
  - apply (NoDup_fmap_1 fst). rewrite <- list_fmap_compose. exact Hids.
  - eapply NoDup_fmap_1. exact Hnd.
  - intros [k f]. rewrite list_elem_of_fmap, Hin. split.
    + intros (n & Heq & Hn). apply select_all_elem in Hn as (k' & row & Hrow & ->).
      unfold entry in Heq. simpl in Heq. injection Heq as -> ->.
      rewrite to_double_exact by (apply Hb in Hrow; lia). eauto.
    + intros (row & Hrow & <-). exists (Store.to_object (k, row)). split.
      * unfold entry. simpl.
        now rewrite to_double_exact by (apply Hb in Hrow; lia).
      * apply select_all_elem. eauto.
Qed.

Lemma fold_command_le inputs : forall st,
  fst (fold_left Spec.command inputs st) <= fst st + Z.of_nat (length inputs).
Proof.
  induction inputs as [|i rest IH]; intros st; [simpl; lia|].
  simpl fold_left. specialize (IH (Spec.command st i)).
  assert (fst (Spec.command st i) <= fst st + 1).
  { unfold Spec.command.
    destruct i as [c|c [[ty n i]|text] now]; simpl; try lia.
    destruct (strict_eq ty "ADD_NOTICE").
    - destruct n as [[[[| |?|]|] [[| |?|]|] [[| |?|]|] [[| |?|]|] [[| |?|]|] ?]|];
        simpl; lia.
    - destruct (strict_eq ty "DELETE_NOTICE"); [|lia].
      destruct i as [[| |?|]|]; simpl; lia. }
  simpl length. lia.
Qed.

(** C3: after any commands handled from a fresh database (fewer than 2^53
    inputs, each [ADD_NOTICE] holding strings and each [DELETE_NOTICE] a
    number, or nothing, as its id), a connecting client is sent one [INITIAL_STATE]
    whose notices are the result of the [SELECT] on the table as it is
    then. They carry each id once, and they are the notice set of the
    commands: every notice an [ADD_NOTICE] entered, under the id it was
    given and with its five fields, that no later [DELETE_NOTICE] took out,
    and nothing else. *)
Theorem initial_state_is_the_table inputs c :
  Forall conforming inputs ->
  Z.of_nat (length inputs) < 2 ^ 53 ->
  let s := state_after (run inputs) initial in
  effects_of (handle (Connection c)) s
    = [ConsoleLog "Client connected";
       Send c (INITIAL_STATE (Store.select_all (db s)))]
  /\ NoDup (map id (Store.select_all (db s)))
  /\ map entry (Store.select_all (db s)) ≡ₚ Spec.notice_set inputs.
Proof.
  intros Hc Hlen s. split.
  - unfold effects_of, handle. now rewrite on_connection_eq.
  - apply holds_snapshot.
    + apply holds_run; [apply holds_empty|assumption|simpl; lia].
    + pose proof (fold_command_le inputs (0, [])) as Hle. simpl in Hle. lia.
Qed.

(** C4: two [ADD_NOTICE] commands, the second handled after the first and
    after whatever the hub handled in between (deletions included), each
    while a rowid is left. Both are applied: each inserts its row under a
    rowid and sends [NOTICE_ADDED] with that rowid, read as a number, to
    every open socket. The second rowid is strictly greater than the
    first, and it is the key of no row when the second command arrives;
    up to 2^53 the numbers sent are the rowids themselves, so the ids the
    two commands receive differ and increase too. In any run, the rowids
    of the insertions increase strictly, all above the sequence counter
    the run started from. *)
Theorem assigned_ids_increase s now1 t1 c1 cat1 p1 a1 e1 i1 mid
    now2 t2 c2 cat2 p2 a2 e2 i2 :
  let add1 := add_notice (complete t1 c1 cat1 p1 a1 e1) i1 in
  let add2 := add_notice (complete t2 c2 cat2 p2 a2 e2) i2 in
  let s1 := state_after (on_message add1 now1) s in
  let s2 := state_after (run mid) s1 in
  let s3 := state_after (on_message add2 now2) s2 in
  ~ rowids_exhausted (db s) ->
  ~ rowids_exhausted (db s2) ->
  (exists r1 r2,
     effects_of (on_message add1 now1) s
       = Inserted r1
           (Store.mkRow t1 c1 cat1 p1 a1 (Clock.CURRENT_TIMESTAMP now1)
              (stored_expiresAt e1))
         :: map (fun cl =>
                   Send (conn cl)
                     (NOTICE_ADDED
                        (new_notice r1 t1 c1 cat1 p1 a1 (Js.Str <$> e1) now1)))
              (filter (fun cl => readyState cl = OPEN) (clients s))
     /\ effects_of (on_message add2 now2) s2
        = Inserted r2
            (Store.mkRow t2 c2 cat2 p2 a2 (Clock.CURRENT_TIMESTAMP now2)
               (stored_expiresAt e2))
          :: map (fun cl =>
                    Send (conn cl)
                      (NOTICE_ADDED
                         (new_notice r2 t2 c2 cat2 p2 a2 (Js.Str <$> e2) now2)))
               (filter (fun cl => readyState cl = OPEN) (clients s2))
     /\ Store.notices (db s1) !! r1
        = Some (Store.mkRow t1 c1 cat1 p1 a1 (Clock.CURRENT_TIMESTAMP now1)
                  (stored_expiresAt e1))
     /\ Store.notices (db s3) !! r2
        = Some (Store.mkRow t2 c2 cat2 p2 a2 (Clock.CURRENT_TIMESTAMP now2)
                  (stored_expiresAt e2))
     /\ 0 < r1 < r2
     /\ Store.notices (db s2) !! r2 = None
     /\ (r2 <= 2 ^ 53 ->
         id (new_notice r1 t1 c1 cat1 p1 a1 (Js.Str <$> e1) now1) = r1
         /\ id (new_notice r2 t2 c2 cat2 p2 a2 (Js.Str <$> e2) now2) = r2))
  /\ (forall inputs s0,
        StronglySorted Z.lt (inserted_ids (effects_of (run inputs) s0))
        /\ Forall (fun k => Store.sqlite_sequence (db s0) < k)
             (inserted_ids (effects_of (run inputs) s0))).
Proof.
  intros add1 add2 s1 s2 s3 Hfree1 Hfree2. split.
  2:{ intros inputs s0. destruct (run_inserted_ids inputs s0) as (H1 & H2 & _).
      now split. }
  destruct (Store.insert (db s) now1 t1 c1 cat1 p1 a1 (stored_expiresAt e1))
    as [[r1 d1]|] eqn:E1; [|apply insert_none in E1; contradiction].
  destruct (Store.insert (db s2) now2 t2 c2 cat2 p2 a2 (stored_expiresAt e2))
    as [[r2 d2]|] eqn:E2; [|apply insert_none in E2; contradiction].
  pose proof (on_message_add s now1 _ _ _ _ _ _ i1 _ _ E1) as H1.
  pose proof (on_message_add s2 now2 _ _ _ _ _ _ i2 _ _ E2) as H2.
  fold add1 in H1. fold add2 in H2.
  assert (s1 = {| db := d1; clients := clients s |}) as Hs1
    by (unfold s1, state_after; now rewrite H1).
  assert (s3 = {| db := d2; clients := clients s2 |}) as Hs3
    by (unfold s3, state_after; now rewrite H2).
  exists r1, r2. unfold effects_of. rewrite H1, H2, <- !sends_open.
  split; [reflexivity|]. split; [reflexivity|].
  apply insert_some in E1 as (Hr1 & Hseq1 & Hn1 & _).
  apply insert_some in E2 as (Hr2 & Hseq2 & Hn2 & Hfresh2).
  rewrite Hs1, Hs3. simpl. rewrite Hn1, Hn2, !lookup_insert_eq.
  split; [reflexivity|]. split; [reflexivity|].
  assert (0 < r1 < r2) as Hlt.
  { pose proof (largest_rowid_nonneg (Store.notices (db s))).
    destruct (run_inserted_ids mid s1) as (_ & _ & Hmono).
    fold s2 in Hmono. rewrite Hs1 in Hmono at 1. simpl in Hmono. lia. }
  split; [assumption|]. split; [assumption|].
  intros Hb. split; apply to_double_exact; lia.
Qed.

(** ** The order of the snapshot *)

(** C5, evaluated: two notices added within the same second, with one
    client connected before them and one after. The two rows share their
    [createdAt], and the snapshot sent to the second client lists them with
    the smaller id first, which is not the order C5 states; the first
    client, which prepended each notice as it was added, holds the same two
    notices with the larger id first. *)
Theorem same_second_notices_in_id_order :
  let inputs :=
    [Connection 1;
     Message 1 (add_notice exam_schedule None) noon;
     Message 1 (add_notice blank_notice None) (noon + 400);
     Connection 2] in
  let s := state_after (run inputs) initial in
  let t := effects_of (run inputs) initial in
  map (fun n => (id n, createdAt n)) (Store.select_all (db s))
    = [(1, "2024-01-01 12:00:00"); (2, "2024-01-01 12:00:00")]
  /\ in_claimed_order (Store.select_all (db s)) = false
  /\ map id (mirror 2 t) = [1; 2]
  /\ map id (mirror 1 t) = [2; 1].
Proof. repeat split; vm_compute; reflexivity. Qed.

(** X19: the [SELECT] returns every row of the table exactly once, as
    the object of the row, sorted by [createdAt] descending. *)
Theorem select_all_newest_first d :
  Permutation (Store.select_all d)
    (map Store.to_object (map_to_list (Store.notices d)))
  /\ StronglySorted newer_or_same (Store.select_all d).
Proof.
  split; [apply select_all_perm|].
  apply Sorted_StronglySorted; [apply newer_or_same_trans|].
  apply select_all_Sorted.
Qed.

(** ** DELETE_NOTICE *)

(** C7: a [DELETE_NOTICE] carrying a number as id makes the handler return
    without raising or logging an error, whether the table holds the id or
    not: it runs the [DELETE] for that id and then sends one
    [NOTICE_DELETED] with the id to each socket of the registry whose
    [readyState] is [OPEN], in the order of the registry, and does nothing
    else. When the table does not hold the id, the store is left as it
    was. (The id is the number as JavaScript reads it, which up to 2^53 is
    the integer written.) *)
Theorem delete_notice_always_broadcasts s c i n now :
  handle (Message c (delete_notice i n) now) s =
    (Returned tt,
     {| db := Store.delete (db s) (Js.to_double i); clients := clients s |},
     Deleted (Some (Js.to_double i))
     :: map (fun cl => Send (conn cl) (NOTICE_DELETED (Js.to_double i)))
          (filter (fun cl => readyState cl = OPEN) (clients s)))
  /\ (Store.notices (db s) !! Js.to_double i = None ->
      Store.delete (db s) (Js.to_double i) = db s)
  /\ (Z.abs i <= 2 ^ 53 -> Js.to_double i = i).
Proof.
  split; [|split].
  - unfold handle. rewrite <- sends_open. apply on_message_delete.
  - intros H. unfold Store.delete. rewrite delete_id by assumption.
    now destruct (db s).
  - apply to_double_exact.
Qed.

Lemma received_app c t1 t2 : received c (t1 ++ t2) = received c t1 ++ received c t2.
Proof. apply omap_app. Qed.

Lemma received_sends c p cs :
  received c (sends p cs) = replicate (registrations c cs) p.
Proof.
  unfold sends, registrations.
  induction cs as [|cl cs IH]; [reflexivity|].
  destruct (is_open cl) eqn:Ho; destruct (Nat.eqb (conn cl) c) eqn:E.
  - rewrite (filter_cons_True (fun x => is_open x)) by (now rewrite Ho).
    rewrite (filter_cons_True (fun x => is_open x && Nat.eqb (conn x) c))
      by (now rewrite Ho, E).
    simpl. rewrite E. simpl. f_equal. exact IH.
  - rewrite (filter_cons_True (fun x => is_open x)) by (now rewrite Ho).
    rewrite (filter_cons_False (fun x => is_open x && Nat.eqb (conn x) c))
      by (now rewrite Ho, E).
    simpl. rewrite E. exact IH.
  - rewrite (filter_cons_False (fun x => is_open x)) by (now rewrite Ho).
    rewrite (filter_cons_False (fun x => is_open x && Nat.eqb (conn x) c))
      by (now rewrite Ho).
    exact IH.
  - rewrite (filter_cons_False (fun x => is_open x)) by (now rewrite Ho).
    rewrite (filter_cons_False (fun x => is_open x && Nat.eqb (conn x) c))
      by (now rewrite Ho).
    exact IH.
Qed.

(** C8: two [DELETE_NOTICE] commands for an id the table holds. The first
    removes that row and no other; the second leaves the hub as the first
    left it. Each runs its [DELETE] and then sends one [NOTICE_DELETED]
    with the id to each open socket of the registry, and nothing else
    happens: the run performs two deletions and two broadcasts, and a
    connection that is open once in the registry receives exactly two
    payloads, both [NOTICE_DELETED] with the id. *)
Theorem delete_notice_twice s i row c1 n1 now1 c2 n2 now2 :
  Store.notices (db s) !! Js.to_double i = Some row ->
  let m1 := Message c1 (delete_notice i n1) now1 in
  let m2 := Message c2 (delete_notice i n2) now2 in
  let s1 := state_after (handle m1) s in
  let s2 := state_after (handle m2) s1 in
  let sent :=
    map (fun cl => Send (conn cl) (NOTICE_DELETED (Js.to_double i)))
      (filter (fun cl => readyState cl = OPEN) (clients s)) in
  S (size (Store.notices (db s1))) = size (Store.notices (db s))
  /\ (forall k, Store.notices (db s1) !! k
                = if decide (k = Js.to_double i) then None
                  else Store.notices (db s) !! k)
  /\ s2 = s1
  /\ state_after (run [m1; m2]) s = s2
  /\ effects_of (run [m1; m2]) s =
       (Deleted (Some (Js.to_double i)) :: sent)
       ++ (Deleted (Some (Js.to_double i)) :: sent)
  /\ (forall c,
        registrations c (clients s) = 1%nat ->
        received c (effects_of (run [m1; m2]) s)
        = [Typed (NOTICE_DELETED (Js.to_double i));
           Typed (NOTICE_DELETED (Js.to_double i))]).
Proof.
  intros Hrow m1 m2 s1 s2 sent.
  set (k0 := Js.to_double i) in *.
  set (s' := {| db := Store.delete (db s) k0; clients := clients s |}).
  assert (handle m1 s =
            (Returned tt, s', Deleted (Some k0) :: sends (NOTICE_DELETED k0) (clients s)))
    as H1 by apply on_message_delete.
  assert (Store.delete (db s') k0 = db s') as Hidem.
  { unfold Store.delete. simpl. now rewrite delete_id by apply lookup_delete_eq. }
  assert (handle m2 s' =
            (Returned tt, s', Deleted (Some k0) :: sends (NOTICE_DELETED k0) (clients s)))
    as H2.
  { unfold m2, handle. rewrite on_message_delete. fold k0. rewrite Hidem.
    reflexivity. }
  assert (s1 = s') as Hs1 by (unfold s1, state_after; now rewrite H1).
  assert (s2 = s') as Hs2 by (unfold s2, state_after; now rewrite Hs1, H2).
  assert (effects_of (run [m1; m2]) s =
            (Deleted (Some k0) :: sends (NOTICE_DELETED k0) (clients s))
            ++ (Deleted (Some k0) :: sends (NOTICE_DELETED k0) (clients s)))
    as Ht by (unfold effects_of; now rewrite (run_two m1 m2 s s' _ s' _ H1 H2)).
  clearbody s1 s2. subst s1 s2.
  split; [|split; [|split; [reflexivity|split; [|split]]]].
  - simpl. unfold Store.delete. simpl. rewrite map_size_delete, Hrow.
    assert (size (Store.notices (db s)) <> 0%nat) as Hne.
    { intros H0. apply map_size_empty_inv in H0. rewrite H0 in Hrow.
      now rewrite lookup_empty in Hrow. }
    destruct (size (Store.notices (db s))); [contradiction|reflexivity].
  - intros k. simpl. unfold Store.delete. simpl. rewrite lookup_delete.
    destruct (decide (k0 = k)), (decide (k = k0)); congruence.
  - unfold state_after. now rewrite (run_two m1 m2 s s' _ s' _ H1 H2).
  - rewrite Ht. unfold sent. now rewrite <- sends_open.
  - intros c Hreg. rewrite Ht, received_app. simpl.
    now rewrite received_sends, Hreg.
Qed.

(** ** Messages that are no command *)

(** C9: a message that is no command makes the handler return normally with
    the hub state (the store, the connections and their ready states) as it
    was; the only effect there can be is the error written to the console,
    so nothing is written to the store and nothing is sent. *)
Theorem not_a_command_is_ignored s c data now :
  not_a_command data ->
  exists log,
    handle (Message c data now) s = (Returned tt, s, log)
    /\ Forall is_console_error log.
Proof.
  intros H. unfold handle. destruct data as [ev|text]; simpl in H.
  - destruct H as [Ha Hd]. exists [].
    split; [now apply on_message_unknown_type|constructor].
  - exists [ConsoleError SyntaxError].
    split; [apply on_message_not_json|repeat constructor].
Qed.
(** ** The client projector *)

(** C6: the fold of the projector. [INITIAL_STATE] replaces the sequence by
    the given one; [NOTICE_ADDED] puts the notice in front; [NOTICE_DELETED]
    keeps, in order, exactly the entries with another id, which takes the
    entry with that id out of a sequence that has one and changes nothing
    in a sequence that has none. *)
Theorem projector_fold (prev : list Notice) :
  (forall notices,
     Projector.onmessage prev (Projector.Fact (INITIAL_STATE notices)) = notices)
  /\ (forall notice,
        Projector.onmessage prev (Projector.Fact (NOTICE_ADDED notice))
          = notice :: prev)
  /\ (forall i,
        Projector.onmessage prev (Projector.Fact (NOTICE_DELETED i))
          = filter (fun n => negb (id n =? i)) prev)
  /\ (forall i before n after,
        prev = before ++ n :: after ->
        id n = i ->
        (forall m, In m (before ++ after) -> id m <> i) ->
        Projector.onmessage prev (Projector.Fact (NOTICE_DELETED i))
          = before ++ after)
  /\ (forall i,
        (forall m, In m prev -> id m <> i) ->
        Projector.onmessage prev (Projector.Fact (NOTICE_DELETED i)) = prev).
Proof.
  assert (forall i (l : list Notice), (forall m, In m l -> id m <> i) ->
            filter (fun n => negb (id n =? i)) l = l) as Hkeep.
  { intros i l. induction l as [|x l IH]; intros H; [reflexivity|].
    rewrite filter_cons.
    destruct (decide (negb (id x =? i))) as [_|Hx].
    - f_equal. apply IH. intros m Hm. apply H. now right.
    - exfalso. apply Hx. apply Is_true_true, negb_true_iff, Z.eqb_neq, H.
      now left. }
  repeat split; try reflexivity.
  - intros i before n after -> Hn Hrest. simpl.
    rewrite filter_app, filter_cons.
    destruct (decide (negb (id n =? i))) as [Hx|_].
    + apply Is_true_true, negb_true_iff, Z.eqb_neq in Hx. contradiction.
    + rewrite <- filter_app. now apply Hkeep.
  - intros i H. simpl. now apply Hkeep.
Qed.
(** C10: a message whose [type] is none of the three fact types leaves the
    local sequence as it is. *)
Theorem unknown_event_is_ignored prev data :
  ~ In (Projector.type_of data) (map Some fact_types) ->
  Projector.onmessage prev data = prev.
Proof.
  intros H. destruct data as [[notices|notice|i]|type]; simpl in *;
    try reflexivity; exfalso; apply H; tauto.
Qed.
(** * Further properties of the hub *)


Lemma ops_sends p cs : ops (sends p cs) = [].
Proof. unfold sends. induction (filter is_open cs); [reflexivity|assumption]. Qed.

Lemma registrations_app c cs1 cs2 :
  registrations c (cs1 ++ cs2) = (registrations c cs1 + registrations c cs2)%nat.
Proof. unfold registrations. now rewrite filter_app, length_app. Qed.

Lemma registrations_other c c' :
  c' <> c -> registrations c [mkClient c' OPEN] = 0%nat.
Proof.
  intros H. unfold registrations.
  rewrite filter_cons_False; [reflexivity|].
  simpl. apply Nat.eqb_neq in H. now rewrite H.
Qed.

Lemma registrations_same c : registrations c [mkClient c OPEN] = 1%nat.
Proof.
  unfold registrations. rewrite filter_cons_True; [reflexivity|].
  simpl. now rewrite Nat.eqb_refl.
Qed.






Lemma unregistered_hears_nothing c inputs s :
  registrations c (clients s) = 0%nat ->
  Forall (fun i => i <> Connection c) inputs ->
  received c (effects_of (run inputs) s) = [].
Proof.
  revert s.
  apply (run_induction
    (fun s inputs t s' =>
       registrations c (clients s) = 0%nat ->
       Forall (fun i => i <> Connection c) inputs ->
       received c t = [])).
  - reflexivity.
  - intros s i s1 t1 rest t2 s2 Hh IH Hreg Hall.
    apply Forall_cons in Hall as [Hi Hall].
    rewrite received_app. pose proof (handled_clients _ _ _ _ Hh) as Hcl.
    destruct Hh as [c'|c' data now s1 t1 Hc].
    + assert (Nat.eqb c' c = false) as E by (apply Nat.eqb_neq; congruence).
      rewrite IH; [simpl; now rewrite E| |assumption].
      rewrite Hcl, registrations_app, Hreg, registrations_other by congruence.
      reflexivity.
    + rewrite IH by (rewrite ?Hcl; assumption). rewrite app_nil_r.
      destruct Hc; simpl; rewrite ?received_sends, ?Hreg; reflexivity.
Qed.

(** X2: a number that no open socket of the registry bears (its sockets
    are closing, closed or absent) and that no later connection takes
    receives nothing from a run: [broadcast] skips every socket that is not
    open. *)
Theorem closed_connection_hears_nothing c inputs s :
  registrations c (clients s) = 0%nat ->
  Forall (fun i => i <> Connection c) inputs ->
  received c (effects_of (run inputs) s) = [].
Proof. apply unregistered_hears_nothing. Qed.

Lemma console_error_not_sent err p cs : ConsoleError err ∉ sends p cs.
Proof.
  unfold sends. intros H. apply list_elem_of_fmap in H as (cl & H & _).
  discriminate.
Qed.

(** X5: error containment. The handler of a message never throws, whatever
    the payload; and when it logs an error, that is all it did: the hub
    state is the one before the message, nothing was written and nothing
    was sent. *)
Theorem failed_message_changes_nothing data now s :
  exists s' t,
    on_message data now s = (Returned tt, s', t)
    /\ forall err, ConsoleError err ∈ t -> s' = s /\ t = [ConsoleError err].
Proof.
  destruct (on_message_cases data now s) as (s' & t & H & Hc).
  exists s', t. split; [assumption|]. intros err Hin.
  destruct Hc as [n i t0 c0 cat p a x rowid d _ _ _|i n key _ _| |err'].
  - apply elem_of_cons in Hin as [Hin|Hin]; [discriminate|].
    now apply console_error_not_sent in Hin.
  - apply elem_of_cons in Hin as [Hin|Hin]; [discriminate|].
    now apply console_error_not_sent in Hin.
  - inversion Hin.
  - apply list_elem_of_singleton in Hin. injection Hin as ->. now split.
Qed.

Lemma snapshot_select_all d : Store.select_all d = snapshot (Store.notices d).
Proof. reflexivity. Qed.

Lemma sends_split p0 cs pre c p post :
  sends p0 cs = pre ++ Send c p :: post -> p = p0.
Proof.
  intros H.
  assert (Send c p ∈ sends p0 cs) as Hin
    by (rewrite H; apply elem_of_app; right; left).
  unfold sends in Hin. apply list_elem_of_fmap in Hin as (cl & Heq & _).
  now injection Heq.
Qed.

(** What an [ADD_NOTICE] broadcasts is backed by the row it inserted. *)
Lemma notice_added_backed m before n t c cat p a x rowid createdAt' createdAt :
  insert_parameters (in_title n) (in_content n) (in_category n)
    (in_priority n) (in_author n) (or_null (in_expiresAt n))
    = Some (t, c, cat, p, a, x) ->
  Inserted rowid (Store.mkRow t c cat p a createdAt' x) ∈ before ->
  backed_by m before (notice_added (Js.to_double rowid) n createdAt).
Proof.
  intros Hpar Hin. unfold notice_added.
  destruct n as [nt nc ncat np na ne]. simpl in *.
  destruct nt as [[| |nt|]|], nc as [[| |nc|]|], ncat as [[| |ncat|]|],
           np as [[| |np|]|], na as [[| |na|]|]; simpl;
    try (eexists rowid, _; split; [exact Hin|reflexivity]).
  eexists rowid, _. split; [exact Hin|]. split; [reflexivity|].
  intros Hplain. simpl in Hplain. unfold insert_parameters in Hpar. simpl in Hpar.
  destruct (or_null ne) as [[| |?|]|]; try contradiction; simpl in Hpar;
    injection Hpar; intros; subst; repeat split.
Qed.

(** A payload sent by one input is backed by what the input did before the
    send. *)
Lemma handled_backed s i s1 ts pre c p post :
  handled s i s1 ts ->
  ts = pre ++ Send c p :: post ->
  backed_by (Store.notices (db s)) pre p.
Proof.
  intros [c'|c' data now s' t Hc] Heq.
  - destruct pre as [|e0 pre]; [discriminate|].
    injection Heq as <- Heq.
    destruct pre as [|e1 pre].
    + injection Heq as _ <- _. reflexivity.
    + injection Heq as _ Heq. now destruct pre.
  - destruct Hc as [n i0 t0 c0 cat p0 a x rowid d _ Hpar E|i0 n key _ Hk| |err].
    + destruct pre as [|e0 pre]; [discriminate|].
      injection Heq as <- Heq. apply sends_split in Heq as ->.
      eapply notice_added_backed; [exact Hpar|left].
    + destruct pre as [|e0 pre]; [discriminate|].
      injection Heq as <- Heq. apply sends_split in Heq as ->.
      destruct i0 as [[| |z|]|]; simpl; try (exists key; left).
      simpl in Hk. injection Hk as <-. left.
    + now destruct pre.
    + destruct pre as [|e0 pre]; [discriminate|].
      injection Heq as _ Heq. now destruct pre.
Qed.

Lemma backed_by_later m ts before p :
  backed_by (replay ts m) before p -> backed_by m (ts ++ before) p.
Proof.
  destruct p as [[ns|n|i]|i ? ? ? ? ? ? ?|i]; simpl.
  - intros ->. now rewrite replay_app.
  - intros (r & row & Hin & Ha). exists r, row. split; [|assumption].
    apply elem_of_app. now right.
  - intros Hin. apply elem_of_app. now right.
  - intros (r & row & Hin & Ha). exists r, row. split; [|assumption].
    apply elem_of_app. now right.
  - intros (key & Hin). exists key. apply elem_of_app. now right.
Qed.

(** X3: write before broadcast. Whatever a run sends, at whatever point:
    a [NOTICE_ADDED] carries, as its id, the number read from the rowid of
    a row inserted earlier in the run, and the title, content, category,
    priority and author of that row when these are strings in the command
    and its [expiresAt || null] is a string or null; a [NOTICE_DELETED]
    with a number as id carries the id of a [DELETE] run earlier; an
    [INITIAL_STATE] is the snapshot of the table as the operations before
    it left it. *)
Theorem every_fact_is_backed_by_the_store inputs s before c p after :
  effects_of (run inputs) s = before ++ Send c p :: after ->
  backed_by (Store.notices (db s)) before p.
Proof.
  revert s before c p after.
  apply (run_induction
    (fun s inputs t s' =>
       forall before c p after,
         t = before ++ Send c p :: after ->
         backed_by (Store.notices (db s)) before p)).
  - intros s before c p after H. now destruct before.
  - intros s i s1 t1 rest t2 s2 Hh IH before c p after Heq.
    apply app_eq_app in Heq as [l [[H1 H2]|[H1 H2]]].
    + destruct l as [|e0 l].
      * simpl in H2. rewrite app_nil_r in H1. subst before.
        rewrite <- (app_nil_r t1). apply backed_by_later.
        rewrite <- (handled_replay _ _ _ _ Hh).
        eapply (IH [] c p after). now rewrite <- H2.
      * injection H2 as <- H2.
        eapply handled_backed; [exact Hh|exact H1].
    + subst before. apply backed_by_later.
      rewrite <- (handled_replay _ _ _ _ Hh).
      eapply IH. exact H2.
Qed.

(** * The mirror of a connected client *)

Lemma message_case_conforming c data now s s' t :
  message_case data now s s' t -> conforming (Message c data now) ->
  conforming_case now s s' t.
Proof.
  intros [n i t0 c0 cat p a x rowid d -> Hpar E|i n key -> Hk| |err] Hc;
    try constructor.
  - simpl in Hc.
    destruct (plain_notice_cases n Hc)
      as [(t1 & c1 & cat1 & p1 & a1 & Ht & Hc1 & Hcat & Hp & Ha & Hpar')|Hl].
    2:{ rewrite (insert_parameters_lacking n Hl Hc) in Hpar. discriminate. }
    rewrite Hpar' in Hpar. injection Hpar as <- <- <- <- <- <-.
    unfold notice_added. rewrite Ht, Hc1, Hcat, Hp, Ha. simpl.
    apply (conforming_added now s t1 c1 cat1 p1 a1 (in_expiresAt n) _ rowid d E).
  - simpl in Hc. destruct i as [[| |z|]|]; try contradiction;
      simpl in Hk; injection Hk as <-;
      [apply conforming_deleted|apply conforming_deleted_none].
Qed.

Lemma handled_conforming s i s' t :
  handled s i s' t -> conforming i -> conforming_handled s i s' t.
Proof.
  intros [c|c data now s1 t1 Hc] Hi; constructor.
  eapply message_case_conforming; eassumption.
Qed.

(** Induction on a run of conforming inputs. *)
Lemma conforming_run_induction
    (P : State -> list Input -> list Effect -> State -> Prop) :
  (forall s, P s [] [] s) ->
  (forall s i s1 t1 rest t2 s2,
     conforming_handled s i s1 t1 -> P s1 rest t2 s2 ->
     P s (i :: rest) (t1 ++ t2) s2) ->
  forall inputs s,
    Forall conforming inputs ->
    P s inputs (effects_of (run inputs) s) (state_after (run inputs) s).
Proof.
  intros Hnil Hcons inputs. induction inputs as [|i rest IH]; intros s Hc.
  - apply Hnil.
  - apply Forall_cons in Hc as [Hi Hc].
    destruct (handle_handled i s) as (s1 & t1 & H & Hh).
    unfold effects_of, state_after. rewrite (run_cons i rest s s1 t1 H). simpl.
    eapply Hcons; [eapply handled_conforming; eassumption|now apply IH].
Qed.

Lemma conforming_handled_exact_ids s i s1 t1 n :
  conforming_handled s i s1 t1 ->
  exact_ids (db s) (S n) -> exact_ids (db s1) n.
Proof.
  intros Hh (Hb & H0 & Hle). rewrite Nat2Z.inj_succ in Hle.
  assert (exact_ids (db s) n) as Hsame by (split; [exact Hb|split; lia]).
  destruct Hh as [c|c data now s' t Hc]; [exact Hsame|].
  destruct Hc as [t0 c0 cat p a e x rowid d E|k| | |err]; try exact Hsame.
  - assert (Store.largest_rowid (Store.notices (db s))
            <= Store.sqlite_sequence (db s)) as Hlarge.
    { apply largest_rowid_le; [assumption|]. intros k row Hk.
      apply Hb in Hk. lia. }
    apply insert_some in E as (Hid & Hseq & Hn & _). simpl.
    unfold exact_ids. rewrite Hn, Hseq. split; [|lia].
    intros k row. destruct (decide (rowid = k)) as [<-|Hne].
    + intros _. lia.
    + rewrite lookup_insert_ne by assumption. intros Hk. apply Hb in Hk. lia.
  - unfold exact_ids, Store.delete. simpl. split; [|lia].
    intros k' row Hk. apply lookup_delete_Some in Hk as [_ Hk]. now apply Hb in Hk.
Qed.

Lemma facts_app l1 l2 : facts (l1 ++ l2) = facts l1 ++ facts l2.
Proof. apply omap_app. Qed.









Lemma facts_deleted_untyped k i :
  facts (replicate k (NOTICE_DELETED_untyped i)) = []
  /\ Forall readable (replicate k (NOTICE_DELETED_untyped i)).
Proof. induction k as [|k [IH1 IH2]]; simpl; split; auto; constructor; simpl; auto. Qed.




(** * The snapshot after an insertion or a deletion *)

Section SortFilter.
Context {A : Type} (le : A -> A -> bool).
Context (P : A -> Prop) `{forall x, Decision (P x)}.

Hypothesis le_trans : forall a b c, le a b = true -> le b c = true -> le a c = true.
Hypothesis le_total : forall a b, le a b = true \/ le b a = true.

Lemma StronglySorted_filter (Q : A -> A -> Prop) l :
  StronglySorted Q l -> StronglySorted Q (filter P l).
Proof.
  induction 1 as [|x l Hs IH Hx]; [constructor|].
  rewrite filter_cons. destruct (decide (P x)); [|assumption].
  constructor; [assumption|].
  apply Forall_forall. intros y Hy. apply list_elem_of_filter in Hy as [_ Hy].
  rewrite Forall_forall in Hx. now apply Hx.
Qed.

Lemma insert_sorted_first x l :
  match l with [] => True | y :: _ => le x y = true end ->
  Store.insert_sorted le x l = x :: l.
Proof. destruct l as [|y l]; simpl; [reflexivity|]. now intros ->. Qed.

Lemma filter_insert_sorted x l :
  StronglySorted (fun u v => le u v = true) l ->
  filter P (Store.insert_sorted le x l)
  = if decide (P x) then Store.insert_sorted le x (filter P l) else filter P l.
Proof.
  induction 1 as [|y l Hs IH Hy]; simpl.
  - rewrite filter_cons, filter_nil. now destruct (decide (P x)).
  - destruct (le x y) eqn:E.
    + rewrite (filter_cons _ x). destruct (decide (P x)) as [Hx|Hx]; [|reflexivity].
      symmetry. apply insert_sorted_first.
      rewrite filter_cons. destruct (decide (P y)); [assumption|].
      destruct (filter P l) as [|z l'] eqn:F; [exact I|].
      assert (z ∈ filter P l) as Hz by (rewrite F; left).
      apply list_elem_of_filter in Hz as [_ Hz].
      rewrite Forall_forall in Hy. eapply le_trans; [exact E|now apply Hy].
    + rewrite (filter_cons _ y), IH, (filter_cons _ y).
      destruct (decide (P x)), (decide (P y)); simpl; try reflexivity.
      now rewrite E.
Qed.

Lemma sort_by_StronglySorted l :
  StronglySorted (fun u v => le u v = true) (Store.sort_by le l).
Proof.
  apply Sorted.Sorted_StronglySorted.
  - intros a b c. apply le_trans.
  - now apply sort_by_Sorted.
Qed.

(** Sorting what a filter keeps is keeping, of the sorted list, what the
    filter keeps. *)
Lemma sort_by_filter l :
  Store.sort_by le (filter P l) = filter P (Store.sort_by le l).
Proof.
  induction l as [|x l IH]; [reflexivity|].
  change (Store.sort_by le (x :: l))
    with (Store.insert_sorted le x (Store.sort_by le l)).
  rewrite filter_insert_sorted by apply sort_by_StronglySorted.
  rewrite filter_cons. destruct (decide (P x)); [|assumption].
  change (Store.sort_by le (x :: filter P l))
    with (Store.insert_sorted le x (Store.sort_by le (filter P l))).
  now rewrite IH.
Qed.

(** An element that comes before none of the others sorts to the front when
    it is appended. *)
Lemma sort_by_snoc_first x l :
  (forall y, y ∈ l -> le y x = false) ->
  Store.sort_by le (l ++ [x]) = x :: Store.sort_by le l.
Proof.
  induction l as [|y l IH]; intros Hl; [reflexivity|].
  change (Store.sort_by le ((y :: l) ++ [x]))
    with (Store.insert_sorted le y (Store.sort_by le (l ++ [x]))).
  rewrite IH by (intros z Hz; apply Hl; now right).
  simpl. rewrite (Hl y) by left. reflexivity.
Qed.

End SortFilter.

Lemma by_rowid_total (a b : Z * Store.Row) :
  (fst a <=? fst b) = true \/ (fst b <=? fst a) = true.
Proof. destruct (Z.leb_spec (fst a) (fst b)); [now left|right; apply Z.leb_le; lia]. Qed.

Lemma by_rowid_trans (a b c : Z * Store.Row) :
  (fst a <=? fst b) = true -> (fst b <=? fst c) = true -> (fst a <=? fst c) = true.
Proof. rewrite !Z.leb_le. lia. Qed.

Lemma createdAt_desc_total a b :
  Store.createdAt_desc a b = true \/ Store.createdAt_desc b a = true.
Proof. apply String.leb_total. Qed.

Lemma createdAt_desc_trans a b c :
  Store.createdAt_desc a b = true -> Store.createdAt_desc b c = true ->
  Store.createdAt_desc a c = true.
Proof. unfold Store.createdAt_desc. eauto using string_leb_trans. Qed.

Lemma scan_StronglySorted d : StronglySorted by_rowid (Store.scan d).
Proof.
  apply (sort_by_StronglySorted (fun a b => fst a <=? fst b)).
  - apply by_rowid_trans.
  - apply by_rowid_total.
Qed.

Lemma scan_perm d : Store.scan d ≡ₚ map_to_list (Store.notices d).
Proof. apply sort_by_perm. Qed.

Lemma scan_elem d k row : (k, row) ∈ Store.scan d <-> Store.notices d !! k = Some row.
Proof. rewrite scan_perm. apply elem_of_map_to_list. Qed.

(** The scan is the one list of the rows of the table in rowid order. *)
Lemma scan_unique d l :
  StronglySorted by_rowid l ->
  (forall k row, (k, row) ∈ l <-> Store.notices d !! k = Some row) ->
  NoDup l ->
  Store.scan d = l.
Proof.
  intros Hs Hl Hnd.
  apply (StronglySorted_unique_strong by_rowid);
    [|apply scan_StronglySorted|assumption|].
  - intros [k1 r1] [k2 r2] H1 H2 H12 H21.
    unfold by_rowid in *. simpl in *. apply Z.leb_le in H12, H21.
    assert (k1 = k2) as -> by lia.
    apply scan_elem in H1. apply Hl in H2. congruence.
  - apply NoDup_Permutation; [|assumption|].
    + rewrite scan_perm. apply NoDup_map_to_list.
    + intros [k row]. now rewrite scan_elem, Hl.
Qed.

Lemma scan_delete d i :
  Store.scan (Store.delete d i)
  = filter (fun kr => negb (fst kr =? i)) (Store.scan d).
Proof.
  apply scan_unique.
  - apply StronglySorted_filter, scan_StronglySorted.
  - intros k row. rewrite list_elem_of_filter, scan_elem. simpl.
    rewrite lookup_delete. destruct (decide (i = k)) as [->|Hne].
    + rewrite Z.eqb_refl. simpl. split; [intros [[] _]|discriminate].
    + assert ((k =? i) = false) as -> by (apply Z.eqb_neq; congruence).
      simpl. tauto.
  - apply NoDup_filter. rewrite scan_perm. apply NoDup_map_to_list.
Qed.

Lemma to_object_filter i l :
  (forall kr, kr ∈ l -> Z.abs (fst kr) <= 2 ^ 53) ->
  map Store.to_object (filter (fun kr => negb (fst kr =? i)) l)
  = filter (fun n => negb (id n =? i)) (map Store.to_object l).
Proof.
  induction l as [|kr l IH]; intros Hb; [reflexivity|].
  simpl. rewrite !filter_cons. simpl.
  rewrite (to_double_exact (fst kr)) by (apply Hb; left).
  rewrite <- IH by (intros x Hx; apply Hb; now right).
  destruct (decide (negb (fst kr =? i))); reflexivity.
Qed.

Lemma select_all_delete d i :
  (forall k row, Store.notices d !! k = Some row -> Z.abs k <= 2 ^ 53) ->
  Store.select_all (Store.delete d i)
  = Projector.onmessage (Store.select_all d)
      (Projector.Fact (NOTICE_DELETED i)).
Proof.
  intros Hb. unfold Store.select_all. simpl. rewrite scan_delete.
  rewrite (sort_by_filter Store.createdAt_desc _
             createdAt_desc_trans createdAt_desc_total).
  apply to_object_filter. intros [k row] Hin. simpl.
  apply (Hb k row), scan_elem.
  assert (Store.sort_by Store.createdAt_desc (Store.scan d) ≡ₚ Store.scan d)
    as Hperm by apply sort_by_perm.
  now rewrite <- Hperm.
Qed.

(** X6: a deletion takes the notice out of the snapshot and leaves the
    others in their order. While no rowid exceeds 2^53, a [DELETE_NOTICE]
    with a number as id broadcasts a [NOTICE_DELETED] fact, and the
    snapshot after the command is what the projector makes of the snapshot
    before it and of that fact. *)
Theorem snapshot_after_delete s c i n now :
  (forall k row, Store.notices (db s) !! k = Some row -> Z.abs k <= 2 ^ 53) ->
  let m := Message c (delete_notice i n) now in
  effects_of (handle m) s
  = Deleted (Some (Js.to_double i))
    :: map (fun cl => Send (conn cl) (NOTICE_DELETED (Js.to_double i)))
         (filter (fun cl => readyState cl = OPEN) (clients s))
  /\ Store.select_all (db (state_after (handle m) s))
     = Projector.onmessage (Store.select_all (db s))
         (Projector.Fact (NOTICE_DELETED (Js.to_double i))).
Proof.
  intros Hb m. unfold m, handle, effects_of, state_after.
  rewrite on_message_delete. simpl. rewrite sends_open.
  split; [reflexivity|]. now apply select_all_delete.
Qed.

Lemma scan_insert d rowid row :
  (forall k r, Store.notices d !! k = Some r -> k < rowid) ->
  Store.scan {| Store.notices := <[rowid := row]> (Store.notices d);
                Store.sqlite_sequence := rowid |}
  = Store.scan d ++ [(rowid, row)].
Proof.
  intros Hmax.
  assert (Store.notices d !! rowid = None) as Hfresh.
  { destruct (Store.notices d !! rowid) eqn:E; [|reflexivity].
    apply Hmax in E. lia. }
  apply scan_unique.
  - apply StronglySorted_app_2.
    + intros [k1 r1] [k2 r2] H1 H2. apply list_elem_of_singleton in H2.
      injection H2 as -> ->. apply scan_elem, Hmax in H1.
      unfold by_rowid. simpl. apply Z.leb_le. lia.
    + apply scan_StronglySorted.
    + repeat constructor.
  - intros k r. simpl. rewrite elem_of_app, list_elem_of_singleton, scan_elem.
    rewrite lookup_insert. destruct (decide (rowid = k)) as [->|Hne].
    + split; [intros [H|H]; congruence|]. intros [= ->]. now right.
    + split; [intros [H|H]; congruence|]. intros H. now left.
  - apply NoDup_app. split; [|split].
    + rewrite scan_perm. apply NoDup_map_to_list.
    + intros [k r] Hin Hx. apply list_elem_of_singleton in Hx.
      injection Hx as -> ->. apply scan_elem in Hin. congruence.
    + apply NoDup_singleton.
Qed.

Lemma ltb_not_leb s1 s2 : String.ltb s1 s2 = true -> String.leb s2 s1 = false.
Proof.
  unfold String.ltb, String.leb. rewrite (String.compare_antisym s1 s2).
  now destruct (String.compare s2 s1).
Qed.

(** X7: the snapshot after an insertion. When every stored notice is of an
    earlier second than the clock shows, the snapshot after the [INSERT] is
    the new row followed by the snapshot before it: the new notice has the
    place the projector's prepend gives it, and the ids of the snapshot are
    those of the mirror that took the [NOTICE_ADDED] fact. *)
Theorem snapshot_after_insert d now t c cat p a x e rowid d' :
  Store.insert d now t c cat p a x = Some (rowid, d') ->
  all_older d now ->
  Store.select_all d'
  = Store.to_object
      (rowid, Store.mkRow t c cat p a (Clock.CURRENT_TIMESTAMP now) x)
    :: Store.select_all d
  /\ map id (Store.select_all d')
     = map id (Projector.onmessage (Store.select_all d)
                 (Projector.Fact
                    (NOTICE_ADDED (new_notice rowid t c cat p a e now)))).
Proof.
  intros E Hold.
  assert (Store.select_all d'
          = Store.to_object
              (rowid, Store.mkRow t c cat p a (Clock.CURRENT_TIMESTAMP now) x)
            :: Store.select_all d) as Hsel.
  { pose proof E as E'.
    apply insert_some in E' as (Hid & Hseq & Hn & Hfresh).
    destruct d' as [m q]. simpl in *. subst m q.
    unfold Store.select_all. rewrite scan_insert.
    - rewrite sort_by_snoc_first; [reflexivity|].
      intros [k r] Hin. apply scan_elem, Hold in Hin.
      unfold Store.createdAt_desc. simpl. now apply ltb_not_leb.
    - intros k r Hk. apply largest_rowid_ge in Hk. lia. }
  split; [assumption|]. now rewrite Hsel.
Qed.

Lemma handled_well_formed s i s1 t1 :
  handled s i s1 t1 -> well_formed (db s) -> well_formed (db s1).
Proof.
  intros [c|c data now s' t Hc] Hwf; [assumption|].
  destruct Hc as [n i0 t0 c0 cat p a x rowid d _ _ E|i0 n [k|] _ _| |err]; simpl;
    try assumption.
  - apply insert_some in E as (Hid & Hseq & Hn & Hfresh).
    intros k row. rewrite Hn, Hseq, lookup_insert.
    destruct (decide (rowid = k)) as [<-|Hne].
    + intros [= <-]. simpl. split.
      * pose proof (largest_rowid_nonneg (Store.notices (db s))). lia.
      * now exists now.
    + intros Hk. destruct (Hwf k row Hk) as (Hr & Hc). split; [lia|assumption].
  - unfold well_formed, Store.delete. simpl. intros k' row.
    rewrite lookup_delete.
    destruct (decide (k = k')); [discriminate|]. apply Hwf.
Qed.

Lemma run_well_formed inputs s :
  well_formed (db s) ->
  well_formed (db (state_after (run inputs) s)).
Proof.
  revert s.
  apply (run_induction
    (fun s inputs t s' => well_formed (db s) -> well_formed (db s'))).
  - auto.
  - intros s i s1 t1 rest t2 s2 Hh IH Hwf.
    eauto using handled_well_formed.
Qed.

(** X8: what the hub keeps true of the database. Starting from a
    well-formed database (the empty one is), after any inputs, whatever
    values their commands carry, every stored notice has a positive id
    that is not above the sequence counter and a [createdAt] that is a
    rendering of [CURRENT_TIMESTAMP]. *)
Theorem run_keeps_well_formed inputs s :
  well_formed (db s) ->
  well_formed (db (state_after (run inputs) s)).
Proof. apply run_well_formed. Qed.

(** * Distinct ids in the mirror *)

Lemma NoDup_ids_filter (P : Notice -> Prop) `{forall n, Decision (P n)} l :
  NoDup (map id l) -> NoDup (map id (filter P l)).
Proof.
  induction l as [|n l IH]; [auto|].
  simpl. rewrite filter_cons. intros Hnd. apply NoDup_cons in Hnd as [Hn Hnd].
  destruct (decide (P n)); [|auto].
  simpl. apply NoDup_cons. split; [|auto].
  intros Hin. apply Hn. apply list_elem_of_fmap in Hin as (m & Hid & Hm).
  apply list_elem_of_filter in Hm as [_ Hm].
  apply list_elem_of_fmap. eauto.
Qed.

(** A connection that is open once keeps distinct ids, all within the
    sequence counter, through a run of conforming inputs, while the ids
    stay exact. *)
Lemma run_keeps_distinct_ids c inputs s :
  Forall conforming inputs ->
  forall l,
    registrations c (clients s) = 1%nat ->
    Forall (fun i => i <> Connection c) inputs ->
    exact_ids (db s) (length inputs) ->
    NoDup (map id l) ->
    (forall n, n ∈ l -> id n <= Store.sqlite_sequence (db s)) ->
    NoDup (map id
             (fold_left Projector.onmessage
                (facts (received c (effects_of (run inputs) s))) l)).
Proof.
  revert s.
  apply (conforming_run_induction
    (fun s inputs t s' =>
       forall l,
         registrations c (clients s) = 1%nat ->
         Forall (fun i => i <> Connection c) inputs ->
         exact_ids (db s) (length inputs) ->
         NoDup (map id l) ->
         (forall n, n ∈ l -> id n <= Store.sqlite_sequence (db s)) ->
         NoDup (map id (fold_left Projector.onmessage (facts (received c t)) l)))).
  - intros s l _ _ _ H _. exact H.
  - intros s i s1 t1 rest t2 s2 Hh IH l Hreg Hall Hex Hnd Hle.
    apply Forall_cons in Hall as [Hi Hall].
    rewrite received_app, facts_app, fold_left_app.
    pose proof (conforming_handled_exact_ids _ _ _ _ _ Hh Hex) as Hex1.
    destruct Hex as (Hb & H0 & Hbound). simpl length in Hbound.
    rewrite Nat2Z.inj_succ in Hbound.
    destruct Hh as [c'|c' data now s1 t1 Hc].
    + assert (Nat.eqb c' c = false) as E by (apply Nat.eqb_neq; congruence).
      simpl. rewrite E. simpl. apply IH; try assumption.
      simpl. rewrite registrations_app, Hreg, registrations_other by congruence.
      reflexivity.
    + destruct Hc as [t0 c0 cat p a e x rowid d E|k| | |err];
        try (apply IH; assumption).
      * simpl. rewrite received_sends, Hreg. simpl.
        apply insert_some in E as (Hid & Hseq & _ & _).
        assert (Store.largest_rowid (Store.notices (db s))
                <= Store.sqlite_sequence (db s)) as Hlarge.
        { apply largest_rowid_le; [assumption|]. intros k row Hk.
          apply Hb in Hk. lia. }
        assert (Js.to_double rowid = rowid) as Hexact
          by (apply to_double_exact; lia).
        apply IH; try assumption.
        -- simpl. rewrite Hexact. apply NoDup_cons. split; [|assumption].
           intros Hin. apply list_elem_of_fmap in Hin as (m & Hm & Hin).
           apply Hle in Hin. lia.
        -- simpl. intros m Hm. apply elem_of_cons in Hm as [->|Hm].
           ++ simpl. lia.
           ++ apply Hle in Hm. lia.
      * simpl. rewrite received_sends, Hreg. simpl.
        apply IH; try assumption.
        -- now apply NoDup_ids_filter.
        -- simpl. intros m Hm. apply list_elem_of_filter in Hm as [_ Hm]. auto.
      * simpl. rewrite received_sends.
        destruct (facts_deleted_untyped (registrations c (clients s)) None)
          as [-> _].
        apply IH; assumption.
Qed.

Lemma connection_distinct_ids s c inputs :
  Forall conforming inputs ->
  exact_ids (db s) (length inputs) ->
  registrations c (clients s) = 0%nat ->
  Forall (fun i => i <> Connection c) inputs ->
  NoDup (map id (mirror c (effects_of (run (Connection c :: inputs)) s))).
Proof.
  intros Hc Hex Hreg Hall.
  unfold mirror, Projector.project, effects_of.
  rewrite (run_cons (Connection c) inputs s _ _ (on_connection_eq s c)).
  simpl. rewrite Nat.eqb_refl. simpl.
  pose proof Hex as (Hb & H0 & Hle).
  apply run_keeps_distinct_ids; try assumption.
  - simpl. now rewrite registrations_app, Hreg, registrations_same.
  - apply select_all_NoDup. intros k row Hk. apply Hb in Hk. lia.
  - intros n Hn. simpl. apply select_all_elem in Hn as (k & row & Hrow & ->).
    simpl. apply Hb in Hrow. rewrite to_double_exact; lia.
Qed.

(** X9: when the number [c] is borne by one connection only, the sequence
    its client folds never holds an id twice (the ids are the keys of the
    rendered list), whatever conforming inputs the hub handles after the
    connection while no id exceeds 2^53. *)
Theorem mirror_ids_are_distinct s c inputs :
  Forall conforming inputs ->
  exact_ids (db s) (length inputs) ->
  registrations c (clients s) = 0%nat ->
  Forall (fun i => i <> Connection c) inputs ->
  NoDup (map id (mirror c (effects_of (run (Connection c :: inputs)) s))).
Proof. apply connection_distinct_ids. Qed.

(** Above 2^53 the ids of a snapshot collide: two rows come back under one
    id. *)
Example snapshot_ids_collide :
  map id
    (Store.select_all
       {| Store.notices :=
            <[2 ^ 53 + 4 := Store.mkRow "b" "" "Exam" "Low" "x"
                              "2024-01-01 12:00:00" None]>
              (<[2 ^ 53 + 3 := Store.mkRow "a" "" "Exam" "Low" "x"
                                 "2024-01-01 12:00:00" None]> ∅);
          Store.sqlite_sequence := 2 ^ 53 + 4 |})
  = [2 ^ 53 + 4; 2 ^ 53 + 4].
Proof. vm_compute. reflexivity. Qed.

(** * The application component *)

Lemma category_value_in c : In (App.category_value c) categories.
Proof. destruct c; simpl; tauto. Qed.

Lemma priority_value_in p : In (App.priority_value p) priorities.
Proof. destruct p; simpl; tauto. Qed.

Lemma form_command_of_form f :
  App.disabled f = false ->
  In (App.f_category f) categories -> In (App.f_priority f) priorities ->
  form_command (App.ADD_NOTICE f).
Proof.
  unfold App.disabled. intros Hd Hc Hp.
  apply orb_false_iff in Hd as [Ht Hco].
  apply String.eqb_neq in Ht, Hco.
  exists (App.f_title f), (App.f_content f), (App.f_category f),
    (App.f_priority f), (App.f_author f).
  split; [reflexivity|].
  intros [H|[H|[(c & H & Hn)|(p & H & Hn)]]]; simpl in H;
    injection H; intros; subst; contradiction.
Qed.

Lemma set_form_ok s update :
  form_ok s ->
  (forall f,
     In (App.f_category f) categories /\ In (App.f_priority f) priorities ->
     In (App.f_category (update f)) categories
     /\ In (App.f_priority (update f)) priorities) ->
  form_ok (App.set_form s update).
Proof.
  intros Hok Hup. unfold App.set_form. destruct (App.modal s) as [f|] eqn:E.
  - intros f' [= <-]. apply Hup, Hok, E.
  - assumption.
Qed.

(** One action keeps the selected values within the lists and puts on the
    wire nothing but commands of the form or of a row. *)
Lemma step_form_ok s a :
  form_ok s ->
  form_ok (fst (App.step s a))
  /\ Forall (fun d => form_command d \/ row_command d) (snd (App.step s a)).
Proof.
  intros Hok.
  assert (forall update,
            (forall f,
               In (App.f_category f) categories /\ In (App.f_priority f) priorities ->
               In (App.f_category (update f)) categories
               /\ In (App.f_priority (update f)) priorities) ->
            form_ok (fst (App.set_form s update, @nil Data))
            /\ Forall (fun d => form_command d \/ row_command d)
                 (snd (App.set_form s update, @nil Data))) as Hform.
  { intros update Hup. split; [now apply set_form_ok|constructor]. }
  destruct a as [data|rs| |v|value|f| | |value|c|p|value|value| |i];
    unfold App.step.
  - split; [exact Hok|constructor].
  - destruct (_ <? _)%nat; (split; [exact Hok|constructor]).
  - destruct (App.isAddModalOpen s); (split; [|constructor]); [exact Hok|].
    intros f. cbn. discriminate.
  - split; [exact Hok|constructor].
  - destruct (App.view s); (split; [exact Hok|constructor]).
  - destruct (App.view s); (split; [exact Hok|constructor]).
  - destruct (App.view s); (split; [|constructor]); [exact Hok|].
    intros f. cbn. destruct (App.modal s) as [f0|] eqn:E; cbn.
    + intros [= <-]. now apply Hok.
    + intros [= <-]. cbn. tauto.
  - destruct (App.modal s) eqn:E; (split; [exact Hok|constructor]).
  - apply Hform. intros f [H1 H2]. now split.
  - apply Hform. intros f [H1 H2]. split; [apply category_value_in|exact H2].
  - apply Hform. intros f [H1 H2]. split; [exact H1|apply priority_value_in].
  - apply Hform. intros f [H1 H2]. now split.
  - apply Hform. intros f [H1 H2]. now split.
  - destruct (App.modal s) as [f|] eqn:E; [|split; [exact Hok|constructor]].
    destruct (App.disabled f) eqn:Hd; [split; [exact Hok|constructor]|].
    destruct (Hok f E) as [Hc Hp].
    assert (form_command (App.ADD_NOTICE f)) as Hcmd
      by now apply form_command_of_form.
    destruct (App.socket s); cbn.
    + split; [exact Hok|constructor].
    + split; [exact Hok|]. constructor; [now left|constructor].
    + split; [exact Hok|constructor].
    + split; [exact Hok|constructor].
  - destruct (App.view s); [split; [exact Hok|constructor]|].
    destruct (App.has_row s i); [|split; [exact Hok|constructor]].
    assert (row_command (App.DELETE_NOTICE i)) as Hcmd by now exists i.
    destruct (App.socket s); cbn.
    + split; [exact Hok|constructor].
    + split; [exact Hok|]. constructor; [now right|constructor].
    + split; [exact Hok|constructor].
    + split; [exact Hok|constructor].
Qed.

Lemma run_form_ok actions : forall s,
  form_ok s ->
  Forall (fun d => form_command d \/ row_command d) (snd (App.run actions s)).
Proof.
  induction actions as [|a rest IH]; intros s Hok; [constructor|].
  simpl. destruct (step_form_ok s a Hok) as [Hok1 Hw1].
  destruct (App.step s a) as [s1 wire1]. simpl in *.
  specialize (IH s1 Hok1). destruct (App.run rest s1) as [s2 wire2].
  simpl in *. apply Forall_app. now split.
Qed.

(** X10: the validation is the form's. Whatever the user does, every
    [ADD_NOTICE] the component puts on the wire carries five strings, with
    a title and a content that are not empty and a category and a priority
    of the enumerated sets, and nothing else; the only other thing it
    sends is a [DELETE_NOTICE] with a number as id. *)
Theorem app_sends_only_valid_commands actions :
  Forall (fun d => form_command d \/ row_command d)
    (snd (App.run actions App.initial)).
Proof. apply run_form_ok. intros f. simpl. discriminate. Qed.

Lemma sends_no_console_error p cs :
  Forall (fun e => ~ is_console_error e) (sends p cs).
Proof.
  unfold sends. induction (filter is_open cs); simpl; constructor; simpl; auto.
Qed.

(** X11: the component and the hub together. A command the component put
    on the wire is never refused by the hub: while a rowid is left, the
    handler performs exactly one store operation for it and logs no
    error. *)
Theorem hub_applies_every_app_command actions d now s :
  d ∈ snd (App.run actions App.initial) ->
  ~ rowids_exhausted (db s) ->
  exists op,
    ops (effects_of (on_message d now) s) = [op]
    /\ Forall (fun e => ~ is_console_error e) (effects_of (on_message d now) s).
Proof.
  intros Hd Hfree.
  assert (form_command d \/ row_command d)
    as [(t & c & cat & p & a & -> & _)|(i & ->)].
  { pose proof (run_form_ok actions App.initial) as H.
    rewrite Forall_forall in H. apply H; [|assumption].
    intros f. simpl. discriminate. }
  - destruct (Store.insert (db s) now t c cat p a (stored_expiresAt None))
      as [[rowid d']|] eqn:E.
    + unfold effects_of. rewrite (on_message_add _ _ _ _ _ _ _ _ _ _ _ E).
      simpl. rewrite ops_sends. eexists. split; [reflexivity|].
      constructor; [simpl; tauto|apply sends_no_console_error].
    + apply insert_none in E. contradiction.
  - unfold effects_of. rewrite on_message_delete. simpl. rewrite ops_sends.
    eexists. split; [reflexivity|].
    constructor; [simpl; tauto|apply sends_no_console_error].
Qed.

Lemma step_notices s a :
  App.notices (fst (App.step s a))
  = match a with
    | App.OnMessage d => Projector.onmessage (App.notices s) d
    | _ => App.notices s
    end.
Proof.
  destruct a; simpl; try reflexivity.
  - now destruct (_ <? _)%nat.
  - now destruct (App.isAddModalOpen s).
  - now destruct (App.view s).
  - now destruct (App.view s).
  - now destruct (App.view s).
  - now destruct (App.modal s).
  - unfold App.set_form. now destruct (App.modal s).
  - unfold App.set_form. now destruct (App.modal s).
  - unfold App.set_form. now destruct (App.modal s).
  - unfold App.set_form. now destruct (App.modal s).
  - unfold App.set_form. now destruct (App.modal s).
  - destruct (App.modal s) as [f|]; [|reflexivity].
    destruct (App.disabled f); [reflexivity|]. now destruct (App.socket s).
  - destruct (App.view s); [reflexivity|].
    destruct (App.has_row s id0); [|reflexivity]. now destruct (App.socket s).
Qed.

(** X12: no optimistic update. The local sequence of the component is the
    fold of the messages it received and of nothing else: no action of the
    user, publishing and deleting included, changes it. *)
Theorem notices_follow_the_messages_only actions s :
  App.notices (fst (App.run actions s))
  = fold_left Projector.onmessage (messages actions) (App.notices s).
Proof.
  revert s. induction actions as [|a rest IH]; intros s; [reflexivity|].
  simpl. pose proof (step_notices s a) as Hs.
  destruct (App.step s a) as [s1 wire1]. simpl in Hs.
  specialize (IH s1). destruct (App.run rest s1) as [s2 wire2]. simpl in *.
  rewrite IH, Hs. now destruct a.
Qed.

Lemma step_closed s a :
  (2 <= App.rank (App.socket s))%nat ->
  (2 <= App.rank (App.socket (fst (App.step s a))))%nat
  /\ snd (App.step s a) = [].
Proof.
  intros Hr.
  destruct a; simpl; try (split; [assumption|reflexivity]).
  - unfold App.step.
    destruct (Nat.ltb_spec (App.rank (App.socket s)) (App.rank rs));
      cbn [fst snd App.set_socket App.socket]; split; try reflexivity; lia.
  - destruct (App.isAddModalOpen s); split; assumption || reflexivity.
  - destruct (App.view s); split; assumption || reflexivity.
  - destruct (App.view s); split; assumption || reflexivity.
  - destruct (App.view s); split; assumption || reflexivity.
  - destruct (App.modal s); split; assumption || reflexivity.
  - unfold App.set_form. destruct (App.modal s); split; assumption || reflexivity.
  - unfold App.set_form. destruct (App.modal s); split; assumption || reflexivity.
  - unfold App.set_form. destruct (App.modal s); split; assumption || reflexivity.
  - unfold App.set_form. destruct (App.modal s); split; assumption || reflexivity.
  - unfold App.set_form. destruct (App.modal s); split; assumption || reflexivity.
  - destruct (App.modal s) as [f|]; [|split; assumption || reflexivity].
    destruct (App.disabled f); [split; assumption || reflexivity|].
    revert Hr. destruct (App.socket s) eqn:E; simpl; intros Hr;
      rewrite ?E; simpl; split; try reflexivity; lia.
  - destruct (App.view s); [split; assumption || reflexivity|].
    destruct (App.has_row s id0); [|split; assumption || reflexivity].
    revert Hr. destruct (App.socket s) eqn:E; simpl; intros Hr;
      rewrite ?E; simpl; split; try reflexivity; lia.
Qed.

(** X13: no reconnection. Once the socket is closing or closed, nothing the
    user does reaches the wire any more, whatever follows; and publishing a
    filled form in that state still closes the modal, so the notice typed
    is dropped without a sign. *)
Theorem nothing_leaves_a_closed_socket actions s :
  (2 <= App.rank (App.socket s))%nat ->
  snd (App.run actions s) = []
  /\ forall f,
       App.modal s = Some f -> App.disabled f = false ->
       App.step s App.ClickPublish = (App.set_open s false, [])
       /\ App.run [App.ClickPublish; App.ExitComplete] s
          = (App.set_modal (App.set_open s false) None, []).
Proof.
  intros Hr.
  assert (forall f,
            App.modal s = Some f -> App.disabled f = false ->
            App.step s App.ClickPublish = (App.set_open s false, [])) as Hstep.
  { intros f Hf Hd. simpl. rewrite Hf, Hd.
    revert Hr. destruct (App.socket s); simpl; intros Hr;
      try reflexivity; lia. }
  split.
  - revert s Hr Hstep. induction actions as [|a rest IH]; intros s Hr _;
      [reflexivity|].
    simpl. destruct (step_closed s a Hr) as [Hr1 Hw1].
    destruct (App.step s a) as [s1 wire1]. simpl in *.
    assert (snd (App.run rest s1) = []) as Hrest.
    { apply IH; [assumption|].
      intros f Hf Hd. simpl. rewrite Hf, Hd.
      revert Hr1. destruct (App.socket s1); simpl; intros Hr1;
        try reflexivity; lia. }
    destruct (App.run rest s1) as [s2 wire2]. simpl in *. now subst.
  - intros f Hf Hd. split; [now apply (Hstep f)|].
    unfold App.run. now rewrite (Hstep f Hf Hd).
Qed.

(** X20: while the modal is mounted its button works. With the socket
    open, a second click on [Publish Notice] during the exit animation
    that follows the first click sends the notice a second time; once the
    animation has ended the button is gone and a click sends nothing. *)
Theorem publish_during_exit s f :
  App.modal s = Some f -> App.disabled f = false -> App.socket s = OPEN ->
  snd (App.run [App.ClickPublish; App.ClickPublish] s)
    = [App.ADD_NOTICE f; App.ADD_NOTICE f]
  /\ snd (App.run [App.ClickPublish; App.ExitComplete; App.ClickPublish] s)
     = [App.ADD_NOTICE f].
Proof. intros Hf Hd Ho. simpl. rewrite Hf, Hd, Ho. simpl. now rewrite Hf, Hd, Ho. Qed.

(** * What the boards show *)

Lemma includes_empty a : App.includes a "" = true.
Proof. destruct a; reflexivity. Qed.

Lemma filter_all {A} (P : A -> Prop) `{forall x, Decision (P x)} (l : list A) :
  (forall x, x ∈ l -> P x) -> filter P l = l.
Proof.
  induction l as [|x l IH]; intros Hl; [reflexivity|].
  rewrite filter_cons_True by (apply Hl; left).
  f_equal. apply IH. intros y Hy. apply Hl. now right.
Qed.

(** X14: the public board without a filter. With ['All'] selected and an
    empty search box every notice of the local sequence is shown, in its
    order, for any [toLowerCase] that maps the empty string to itself. *)
Theorem unfiltered_board_shows_everything toLowerCase s :
  toLowerCase "" = "" ->
  App.filter_by s = "All" ->
  App.search s = "" ->
  App.filteredNotices toLowerCase s = App.notices s.
Proof.
  intros Hl Hf Hs. unfold App.filteredNotices. apply filter_all.
  intros n _. unfold App.matches. rewrite Hf, Hs, Hl. simpl.
  now rewrite includes_empty.
Qed.

(** X15: the filtered board follows the facts. After a [NOTICE_DELETED] the
    board is the board before it without the notice of that id; after a
    [NOTICE_ADDED] it is the board before it, with the new notice in front
    exactly when the notice matches the filter and the search. The filter
    and the search never have to be applied again to what was shown. *)
Theorem filtered_board_follows_the_facts toLowerCase s :
  (forall i,
     App.filteredNotices toLowerCase
       (fst (App.step s (App.OnMessage (Projector.Fact (NOTICE_DELETED i)))))
     = filter (fun n => negb (id n =? i)) (App.filteredNotices toLowerCase s))
  /\ (forall n,
        App.filteredNotices toLowerCase
          (fst (App.step s (App.OnMessage (Projector.Fact (NOTICE_ADDED n)))))
        = if App.matches toLowerCase (App.filter_by s) (App.search s) n
          then n :: App.filteredNotices toLowerCase s
          else App.filteredNotices toLowerCase s).
Proof.
  split.
  - intros i. unfold App.filteredNotices. simpl.
    rewrite !list_filter_filter. apply list_filter_iff. intros n. tauto.
  - intros n. unfold App.filteredNotices. simpl. rewrite filter_cons.
    destruct (App.matches toLowerCase (App.filter_by s) (App.search s) n);
      simpl; reflexivity.
Qed.



(** * Adding and deleting *)

(** X17: an [ADD_NOTICE] followed by the [DELETE_NOTICE] of the id its
    fact carries, while that id does not exceed 2^53. The table and the
    snapshot are as before the two commands, but the id is spent (the
    sequence counter stays at it); and a mirror that did not hold the id
    is, after the two facts, as it was. *)
Theorem add_then_delete_restores s c1 c2 now1 now2 t c cat p a e i rowid d :
  Store.insert (db s) now1 t c cat p a (stored_expiresAt e) = Some (rowid, d) ->
  rowid <= 2 ^ 53 ->
  let fact := new_notice rowid t c cat p a (Js.Str <$> e) now1 in
  let s' :=
    state_after
      (run [Message c1 (add_notice (complete t c cat p a e) i) now1;
            Message c2 (delete_notice (id fact) None) now2]) s in
  id fact = rowid
  /\ Store.notices (db s') = Store.notices (db s)
  /\ Store.select_all (db s') = Store.select_all (db s)
  /\ Store.sqlite_sequence (db s') = rowid
  /\ forall l,
       (forall n, n ∈ l -> id n <> rowid) ->
       fold_left Projector.onmessage
         [Projector.Fact (NOTICE_ADDED fact);
          Projector.Fact (NOTICE_DELETED (Js.to_double (id fact)))] l
       = l.
Proof.
  intros E Hle fact s'.
  assert (0 < rowid) as Hpos.
  { pose proof (largest_rowid_nonneg (Store.notices (db s))).
    apply insert_some in E as (-> & _). lia. }
  assert (Js.to_double rowid = rowid) as Hd by (apply to_double_exact; lia).
  assert (id fact = rowid) as Hid by exact Hd.
  assert (Store.notices (db s') = Store.notices (db s)
          /\ Store.sqlite_sequence (db s') = rowid) as [Hn Hseq].
  { subst s'. unfold state_after.
    rewrite (run_two
               (Message c1 (add_notice (complete t c cat p a e) i) now1)
               (Message c2 (delete_notice (id fact) None) now2) s _ _ _ _
               (on_message_add s now1 t c cat p a e i rowid d E
                  : handle (Message c1 _ now1) s = _)
               (on_message_delete _ now2 (id fact) None
                  : handle (Message c2 _ now2) _ = _)).
    rewrite Hid, Hd. simpl.
    apply insert_some in E as (_ & Hseq & Hn & Hfresh).
    unfold Store.delete. simpl. rewrite Hn, Hseq.
    split; [|reflexivity]. now apply delete_insert_id. }
  split; [assumption|]. split; [assumption|]. split; [|split; [assumption|]].
  - unfold Store.select_all, Store.scan. now rewrite Hn.
  - intros l Hl. rewrite Hid, Hd. simpl. rewrite filter_cons_False.
    + apply filter_all. intros n Hn'.
      apply Is_true_true, negb_true_iff, Z.eqb_neq. now apply Hl.
    + fold fact. rewrite Hid, Z.eqb_refl. simpl. tauto.
Qed.



End Properties.

(** * The properties at sample inputs *)

#[local] Existing Instance inert.

(** C1, as stated, fails: the hub applies an [ADD_NOTICE] whose title and
    content are empty and whose category and priority are outside the
    enumerated sets. The row is written under id 1 and the fact is sent to
    the open connection. *)
Lemma add_notice_blank_is_applied :
  fails_validation blank_notice
  /\ Store.notices (db one_viewer) !! 1 = None
  /\ Store.notices
       (db (state_after (on_message (add_notice blank_notice None) noon) one_viewer))
       !! 1
     = Some (Store.mkRow "" "" "Bogus" "Urgent" "Admin" "2024-01-01 12:00:00" None)
  /\ effects_of (on_message (add_notice blank_notice None) noon) one_viewer
     = [Inserted 1
          (Store.mkRow "" "" "Bogus" "Urgent" "Admin" "2024-01-01 12:00:00" None);
        Send 1
          (NOTICE_ADDED
             (mkNotice 1 "" "" "Bogus" "Urgent" "Admin"
                "2024-01-01T12:00:00.123Z" None))].
Proof.
  split; [left; reflexivity|].
  split; [reflexivity|].
  split; vm_compute; reflexivity.
Qed.

Lemma add_notice_is_not_validated_witness :
  (exists rowid,
     Store.notices (db one_viewer) !! rowid = None
     /\ on_message (add_notice blank_notice None) noon one_viewer =
          (Returned tt,
           {| db := {| Store.notices :=
                         <[rowid := Store.mkRow "" "" "Bogus" "Urgent" "Admin"
                                      "2024-01-01 12:00:00" None]> ∅;
                       Store.sqlite_sequence := rowid |};
              clients := [mkClient 1 OPEN] |},
           [Inserted rowid
              (Store.mkRow "" "" "Bogus" "Urgent" "Admin"
                 "2024-01-01 12:00:00" None);
            Send 1
              (NOTICE_ADDED
                 (mkNotice (Js.to_double rowid) "" "" "Bogus" "Urgent" "Admin"
                    "2024-01-01T12:00:00.123Z" None))]))
  /\ on_message
       (add_notice
          (mkNoticeInput None (Some (Js.Str "Finals begin Monday"))
             (Some (Js.Str "Exam")) (Some (Js.Str "High"))
             (Some (Js.Str "Registrar")) None) None) noon one_viewer
     = (Returned tt, one_viewer, [ConsoleError RunError]).
Proof.
  split.
  - apply (proj1 (add_notice_is_not_validated one_viewer noon None)
             "" "" "Bogus" "Urgent" "Admin" None).
    unfold rowids_exhausted. vm_compute. discriminate.
  - apply (proj2 (add_notice_is_not_validated one_viewer noon None)).
    + left. reflexivity.
    + exact I.
Defined.

Lemma initial_state_is_the_table_witness :
  let inputs :=
    [Message 1 (add_notice exam_schedule None) noon;
     Message 1 (add_notice blank_notice None) (noon + 1000);
     Message 1 (delete_notice 1 None) (noon + 2000)] in
  map entry (Store.select_all (db (state_after (run inputs) initial)))
  ≡ₚ [(2, ("", "", "Bogus", "Urgent", "Admin"))].
Proof.
  intros inputs.
  refine (proj2 (proj2 (initial_state_is_the_table inputs 2 _ _))).
  - repeat constructor.
  - reflexivity.
Defined.

Lemma assigned_ids_increase_witness :
  exists r1 r2,
    effects_of (on_message (add_notice exam_schedule None) noon) one_viewer
      = [Inserted r1
           (Store.mkRow "Exam Schedule" "Finals begin Monday" "Exam" "High"
              "Registrar" "2024-01-01 12:00:00" None);
         Send 1
           (NOTICE_ADDED
              (mkNotice (Js.to_double r1) "Exam Schedule" "Finals begin Monday"
                 "Exam" "High" "Registrar" "2024-01-01T12:00:00.123Z" None))]
    /\ effects_of (on_message (add_notice blank_notice None) (noon + 2000))
         (state_after
            (run [Message 1 (add_notice exam_schedule None) noon;
                  Message 1 (delete_notice 1 None) (noon + 1000)])
            one_viewer)
       = [Inserted r2
            (Store.mkRow "" "" "Bogus" "Urgent" "Admin" "2024-01-01 12:00:02"
               None);
          Send 1
            (NOTICE_ADDED
               (mkNotice (Js.to_double r2) "" "" "Bogus" "Urgent" "Admin"
                  "2024-01-01T12:00:02.123Z" None))]
    /\ 0 < r1 < r2.
Proof.
  destruct (proj1 (assigned_ids_increase one_viewer noon
                     "Exam Schedule" "Finals begin Monday" "Exam" "High"
                     "Registrar" None None
                     [Message 1 (delete_notice 1 None) (noon + 1000)]
                     (noon + 2000) "" "" "Bogus" "Urgent" "Admin" None None
                     ltac:(unfold rowids_exhausted; vm_compute; discriminate)
                     ltac:(unfold rowids_exhausted; vm_compute; discriminate)))
    as (r1 & r2 & H1 & H2 & _ & _ & Hlt & _).
  exists r1, r2. split; [exact H1|]. split; [exact H2|exact Hlt].
Defined.

Lemma delete_notice_twice_witness :
  let s := state_after (handle (Message 1 (add_notice exam_schedule None) noon))
             one_viewer in
  effects_of
    (run [Message 1 (delete_notice 1 None) noon;
          Message 1 (delete_notice 1 None) noon]) s
  = [Deleted (Some 1); Send 1 (NOTICE_DELETED 1);
     Deleted (Some 1); Send 1 (NOTICE_DELETED 1)].
Proof.
  intros s.
  refine (proj1 (proj2 (proj2 (proj2 (proj2
    (delete_notice_twice s 1
       (Store.mkRow "Exam Schedule" "Finals begin Monday" "Exam" "High"
          "Registrar" "2024-01-01 12:00:00" None)
       1%nat None noon 1%nat None noon _)))))).
  vm_compute. reflexivity.
Defined.

Lemma not_a_command_is_ignored_witness :
  (exists log,
     handle (Message 1 (NotJson "{") noon) one_viewer
       = (Returned tt, one_viewer, log)
     /\ Forall is_console_error log)
  /\ (exists log,
        handle (Message 1 (Json (mkClientEvent (Some "PING") None None)) noon) one_viewer
          = (Returned tt, one_viewer, log)
        /\ Forall is_console_error log).
Proof.
  split.
  - apply (not_a_command_is_ignored one_viewer 1%nat (NotJson "{") noon).
    exact I.
  - apply (not_a_command_is_ignored one_viewer 1%nat
             (Json (mkClientEvent (Some "PING") None None)) noon).
    simpl. split; discriminate.
Defined.

Lemma projector_fold_witness :
  Projector.onmessage
    [mkNotice 2 "b" "" "Exam" "Low" "x" "" None;
     mkNotice 1 "a" "" "Exam" "Low" "x" "" None;
     mkNotice 3 "c" "" "Exam" "Low" "x" "" None]
    (Projector.Fact (NOTICE_DELETED 1))
  = [mkNotice 2 "b" "" "Exam" "Low" "x" "" None]
    ++ [mkNotice 3 "c" "" "Exam" "Low" "x" "" None].
Proof.
  refine (proj1 (proj2 (proj2 (proj2 (projector_fold _)))) 1
            [mkNotice 2 "b" "" "Exam" "Low" "x" "" None]
            (mkNotice 1 "a" "" "Exam" "Low" "x" "" None)
            [mkNotice 3 "c" "" "Exam" "Low" "x" "" None] eq_refl eq_refl _).
  intros m [<-|[<-|[]]]; simpl; discriminate.
Defined.

Lemma unknown_event_is_ignored_witness :
  Projector.onmessage [mkNotice 1 "a" "" "Exam" "Low" "x" "" None]
    (Projector.Other (Some "PING"))
  = [mkNotice 1 "a" "" "Exam" "Low" "x" "" None].
Proof.
  apply (unknown_event_is_ignored
           [mkNotice 1 "a" "" "Exam" "Low" "x" "" None] (Projector.Other (Some "PING"))).
  simpl. intros [H|[H|[H|[]]]]; discriminate.
Defined.


Lemma closed_connection_hears_nothing_witness :
  received 2
    (effects_of
       (run [Message 1 (add_notice exam_schedule None) noon;
             Message 1 (delete_notice 1 None) noon])
       {| db := Store.empty;
          clients := [mkClient 1 OPEN; mkClient 2 CLOSING] |})
  = [].
Proof.
  apply (closed_connection_hears_nothing 2
           [Message 1 (add_notice exam_schedule None) noon;
            Message 1 (delete_notice 1 None) noon]
           {| db := Store.empty;
              clients := [mkClient 1 OPEN; mkClient 2 CLOSING] |}).
  - reflexivity.
  - repeat constructor; discriminate.
Defined.

Lemma every_fact_is_backed_by_the_store_witness :
  backed_by (Store.notices (db one_viewer))
    [Inserted 1
       (Store.mkRow "Exam Schedule" "Finals begin Monday" "Exam" "High"
          "Registrar" "2024-01-01 12:00:00" None)]
    (NOTICE_ADDED
       (mkNotice 1 "Exam Schedule" "Finals begin Monday" "Exam" "High"
          "Registrar" "2024-01-01T12:00:00.123Z" None)).
Proof.
  apply (every_fact_is_backed_by_the_store
           [Message 1 (add_notice exam_schedule None) noon] one_viewer
           _ 1%nat _ []).
  vm_compute. reflexivity.
Defined.

Lemma exact_ids_empty n : Z.of_nat n <= 2 ^ 53 -> exact_ids Store.empty n.
Proof.
  intros H. split; [|simpl; lia].
  intros k row Hk. simpl in Hk. now rewrite lookup_empty in Hk.
Defined.


Lemma snapshot_after_delete_witness :
  let s :=
    {| db := {| Store.notices :=
                  <[1 := Store.mkRow "Exam Schedule" "Finals begin Monday"
                           "Exam" "High" "Registrar" "2024-01-01 12:00:00"
                           None]> ∅;
                Store.sqlite_sequence := 1 |};
       clients := [mkClient 1 OPEN] |} in
  effects_of (handle (Message 1 (delete_notice 1 None) noon)) s
  = [Deleted (Some 1); Send 1 (NOTICE_DELETED 1)]
  /\ Store.select_all
       (db (state_after (handle (Message 1 (delete_notice 1 None) noon)) s))
     = Projector.onmessage (Store.select_all (db s))
         (Projector.Fact (NOTICE_DELETED 1)).
Proof.
  intros s. apply (snapshot_after_delete s 1%nat 1 None noon).
  intros k row Hk. simpl in Hk. apply lookup_insert_Some in Hk as [[<- _]|[_ Hk]].
  - vm_compute. discriminate.
  - now rewrite lookup_empty in Hk.
Defined.

Lemma snapshot_after_insert_witness :
  let d := db (state_after
                 (handle (Message 1 (add_notice exam_schedule None) noon))
                 one_viewer) in
  map id
    (Store.select_all
       (db (state_after
              (handle (Message 1 (add_notice blank_notice None) (noon + 1000)))
              {| db := d; clients := [] |})))
  = [2; 1].
Proof.
  intros d.
  assert (Store.insert d (noon + 1000) "" "" "Bogus" "Urgent" "Admin" None
          = Some (2, db (state_after
                           (handle (Message 1 (add_notice blank_notice None)
                                      (noon + 1000)))
                           {| db := d; clients := [] |}))) as E
    by (vm_compute; reflexivity).
  assert (all_older d (noon + 1000)) as Hold.
  { intros k row Hk. destruct (decide (k = 1)) as [->|Hne].
    - vm_compute in Hk. injection Hk as <-. reflexivity.
    - assert (Store.notices d !! k = None) as Hnone; [|congruence].
      replace (Store.notices d)
        with (<[1 := Store.mkRow "Exam Schedule" "Finals begin Monday" "Exam"
                       "High" "Registrar" "2024-01-01 12:00:00" None]>
                (∅ : gmap Z Store.Row)) by (vm_compute; reflexivity).
      rewrite lookup_insert_ne by congruence. apply lookup_empty. }
  rewrite (proj1 (snapshot_after_insert d (noon + 1000) "" "" "Bogus" "Urgent"
                    "Admin" None None 2 _ E Hold)).
  reflexivity.
Defined.

Lemma run_keeps_well_formed_witness :
  well_formed
    (db (state_after
           (run [Message 1 (add_notice exam_schedule None) noon;
                 Message 1 (delete_notice 7 None) noon])
           initial)).
Proof.
  apply (run_keeps_well_formed
           [Message 1 (add_notice exam_schedule None) noon;
            Message 1 (delete_notice 7 None) noon] initial).
  intros k row Hk. simpl in Hk. now rewrite lookup_empty in Hk.
Defined.

Lemma mirror_ids_are_distinct_witness :
  NoDup (map id
           (mirror 1
              (effects_of
                 (run [Connection 1;
                       Message 1 (add_notice exam_schedule None) noon;
                       Message 1 (add_notice blank_notice None) noon])
                 initial))).
Proof.
  apply (mirror_ids_are_distinct initial 1
           [Message 1 (add_notice exam_schedule None) noon;
            Message 1 (add_notice blank_notice None) noon]).
  - repeat constructor.
  - apply exact_ids_empty. vm_compute. discriminate.
  - reflexivity.
  - repeat constructor; discriminate.
Defined.

Lemma hub_applies_every_app_command_witness :
  exists op,
    ops (effects_of
           (on_message
              (App.ADD_NOTICE
                 (App.mkFormData "Exam Schedule" "Finals begin Monday" "Exam"
                    "High" "Admin")) noon) one_viewer) = [op]
    /\ Forall (fun e => ~ is_console_error e)
         (effects_of
            (on_message
               (App.ADD_NOTICE
                  (App.mkFormData "Exam Schedule" "Finals begin Monday" "Exam"
                     "High" "Admin")) noon) one_viewer).
Proof.
  apply (hub_applies_every_app_command
           [App.ReadyStateChange OPEN; App.ClickView App.admin;
            App.ClickNewNotice; App.TypeTitle "Exam Schedule";
            App.TypeContent "Finals begin Monday";
            App.SelectCategory App.Exam; App.SelectPriority App.High;
            App.ClickPublish]).
  - vm_compute. left.
  - unfold rowids_exhausted. vm_compute. discriminate.
Defined.

Lemma nothing_leaves_a_closed_socket_witness :
  snd (App.run
         [App.ClickView App.admin; App.ClickNewNotice; App.TypeTitle "t";
          App.TypeContent "c"; App.ClickPublish; App.ClickDelete 1]
         (App.mkState
            [mkNotice 1 "a" "b" "Exam" "Low" "x" "2024-01-01 12:00:00" None]
            App.public "All" "" false None CLOSED))
  = [].
Proof.
  apply (nothing_leaves_a_closed_socket
           [App.ClickView App.admin; App.ClickNewNotice; App.TypeTitle "t";
            App.TypeContent "c"; App.ClickPublish; App.ClickDelete 1]
           (App.mkState
              [mkNotice 1 "a" "b" "Exam" "Low" "x" "2024-01-01 12:00:00" None]
              App.public "All" "" false None CLOSED)).
  simpl. lia.
Defined.

Lemma publish_during_exit_witness :
  let s :=
    App.mkState [] App.admin "All" "" true
      (Some (App.mkFormData "Exam Schedule" "Finals begin Monday" "Exam"
               "High" "Admin")) OPEN in
  snd (App.run [App.ClickPublish; App.ClickPublish] s)
    = [App.ADD_NOTICE
         (App.mkFormData "Exam Schedule" "Finals begin Monday" "Exam" "High"
            "Admin");
       App.ADD_NOTICE
         (App.mkFormData "Exam Schedule" "Finals begin Monday" "Exam" "High"
            "Admin")]
  /\ snd (App.run [App.ClickPublish; App.ExitComplete; App.ClickPublish] s)
     = [App.ADD_NOTICE
          (App.mkFormData "Exam Schedule" "Finals begin Monday" "Exam" "High"
             "Admin")].
Proof.
  intros s.
  apply (publish_during_exit s
           (App.mkFormData "Exam Schedule" "Finals begin Monday" "Exam" "High"
              "Admin")); reflexivity.
Defined.

Lemma unfiltered_board_shows_everything_witness :
  App.filteredNotices lower
    (App.mkState
       [mkNotice 2 "B" "" "Exam" "Low" "x" "" None;
        mkNotice 1 "a" "" "Event" "High" "y" "" None]
       App.public "All" "" false None OPEN)
  = [mkNotice 2 "B" "" "Exam" "Low" "x" "" None;
     mkNotice 1 "a" "" "Event" "High" "y" "" None].
Proof.
  apply (unfiltered_board_shows_everything lower
           (App.mkState
              [mkNotice 2 "B" "" "Exam" "Low" "x" "" None;
               mkNotice 1 "a" "" "Event" "High" "y" "" None]
              App.public "All" "" false None OPEN));
    reflexivity.
Defined.


Lemma add_then_delete_restores_witness :
  Store.select_all
    (db (state_after
           (run [Message 1 (add_notice exam_schedule None) noon;
                 Message 1 (delete_notice 1 None) noon]) one_viewer))
  = Store.select_all (db one_viewer).
Proof.
  refine (proj1 (proj2 (proj2
    (add_then_delete_restores one_viewer 1%nat 1%nat noon noon
       "Exam Schedule" "Finals begin Monday" "Exam" "High" "Registrar" None
       None 1
       (db (state_after
              (handle (Message 1 (add_notice exam_schedule None) noon))
              one_viewer)) _ _)))).
  - vm_compute. reflexivity.
  - vm_compute. discriminate.
Defined.

